(** * bvshares: the settlement calculator of [app.py]

    A shallow embedding of the calculation engine of [app.py]
    ([days_inclusive], [add_months], [parse_date], [parse_float] and
    [calculate] with its local [riv_component]) and the properties of it
    that the specification states, followed by the texts around the
    engine ([parse_date] and [parse_float] on the text of a field, [eur])
    and the page [index] up to its template.

    Conventions of the embedding.
    - A Python [float] is an IEEE 754 binary64 number: [spec_float] of the
      Standard Library with 53 bits of precision, rounding to nearest, ties
      to even.  Python shows one NaN only, and so does [spec_float].
    - A Python [int] is a [Z].
    - A [datetime.date] is a record of year, month and day; the constructor
      [date(y, m, d)], which raises [OverflowError] on an argument that
      does not fit a C [int] and [ValueError] on one outside the calendar,
      is [mk_date].
    - An exception that leaves [calculate] is a value of [exn]; the
      functions that can raise return [exn + _].
    - The text of a form field is read by Python's [float], [int] and
      [str.split]; the embedding of [calculate] starts behind them, at
      what they return (see [field]).  Module [Text] has the texts
      themselves, with [float] and [int] as parameters of the readers.
    - The keys of the [components] dicts are texts built with [str.format];
      the embedding keeps the values they are built from (see [label]).

    Contents: the embedding; the inputs used as examples and the notions
    of the statements; texts and the page; facts about the calendar, the
    sign of a float and rounding; the properties of the date utilities,
    of the revenue streams and of [calculate]; more of the calendar
    helpers, of the result, of the readers on texts, of [eur] and of
    [index]. *)

From Stdlib Require Import ZArith NArith DecimalPos Bool List Lia.
From Stdlib Require Import Floats.SpecFloat.
Import ListNotations.

Local Open Scope Z_scope.

(* ===================================================================== *)
(** * Python floats *)
(* ===================================================================== *)

Module Float.

Definition prec : Z := 53.
Definition emax : Z := 1024.

Definition float : Type := spec_float.

Definition fadd : float -> float -> float := SFadd prec emax.
Definition fsub : float -> float -> float := SFsub prec emax.
Definition fmul : float -> float -> float := SFmul prec emax.
Definition fdiv : float -> float -> float := SFdiv prec emax.

(** [float(n)] for an int [n], also the conversion Python applies to the
    int operand of a mixed operation such as [x * n]: the nearest
    binary64 number.  CPython raises [OverflowError] above the largest
    float; every int that [calculate] converts is a day count or a month
    count bounded by the calendar, far below 2^53, and is converted
    exactly. *)
Definition of_int (n : Z) : float := binary_normalize prec emax n 0 false.

(** The float written [m * 2^e]; the decimal literals of the source are
    all of this form ([365.25] is [1461 * 2^-2]). *)
Definition lit (m e : Z) : float := binary_normalize prec emax m e false.

Definition zero : float := S754_zero false.      (* 0.0 *)
Definition nan : float := S754_nan.
Definition inf : float := S754_infinity false.

Definition f12 : float := Eval vm_compute in lit 12 0.          (* 12.0 *)
Definition f100 : float := Eval vm_compute in lit 100 0.        (* 100.0 *)
Definition f365_25 : float := Eval vm_compute in lit 1461 (-2). (* 365.25 *)

(** The comparisons of Python on floats: false as soon as one side is
    NaN. *)
Definition flt (x y : float) : bool := SFltb x y.
Definition fle (x y : float) : bool := SFleb x y.

(** [x >= 0] *)
Definition nonneg (x : float) : Prop := fle zero x = true.
(** [not (x < 0)]: [x >= 0], or [x] is NaN. *)
Definition not_negative (x : float) : Prop := flt x zero = false.
(** [x <= 0] *)
Definition nonpos (x : float) : Prop := fle x zero = true.
(** [x < 0] *)
Definition negative (x : float) : Prop := flt x zero = true.

End Float.

Import Float.

(* ===================================================================== *)
(** * Exceptions *)
(* ===================================================================== *)

Inductive exn : Type :=
| OverflowError   (* int(inf); date(y, m, d) beyond the C ints *)
| ValueError.     (* int(nan); date(y, m, d) outside the calendar *)

Definition py (A : Type) : Type := (exn + A)%type.

Definition ret {A : Type} (a : A) : py A := inr a.
Definition raise {A : Type} (e : exn) : py A := inl e.
Definition bind {A B : Type} (c : py A) (k : A -> py B) : py B :=
  match c with
  | inl e => inl e
  | inr a => k a
  end.

Notation "x <- c ;; k" := (bind c (fun x => k))
  (at level 61, c at next level, right associativity).

(** [int(x)] on a float: truncation towards zero; [OverflowError] on an
    infinity, [ValueError] on NaN. *)
Definition int_of_float (x : float) : py Z :=
  match x with
  | S754_zero _ => ret 0
  | S754_finite s m e => ret (cond_Zopp s (Z.shiftl (Zpos m) e))
  | S754_infinity _ => raise OverflowError
  | S754_nan => raise ValueError
  end.

(* ===================================================================== *)
(** * Python dates *)
(* ===================================================================== *)

Record date : Type := Date { year : Z; month : Z; day : Z }.

Definition MINYEAR : Z := 1.
Definition MAXYEAR : Z := 9999.

(** The leap-year test, as [add_months] writes it (and as [datetime]
    does). *)
Definition is_leap (y : Z) : bool :=
  (y mod 4 =? 0) && (negb (y mod 100 =? 0) || (y mod 400 =? 0)).

(** The table of [add_months], indexed by [m - 1]:
    [[31, 29 if leap else 28, 31, 30, 31, 30, 31, 31, 30, 31, 30, 31]]. *)
Definition month_table (y : Z) : list Z :=
  [31; if is_leap y then 29 else 28; 31; 30; 31; 30; 31; 31; 30; 31; 30; 31].

Definition days_in_month (y m : Z) : Z :=
  nth (Z.to_nat (m - 1)) (month_table y) 0.

Definition valid_date (d : date) : bool :=
  (MINYEAR <=? year d) && (year d <=? MAXYEAR) &&
  (1 <=? month d) && (month d <=? 12) &&
  (1 <=? day d) && (day d <=? days_in_month (year d) (month d)).

(** The constructor of CPython takes its three arguments as C [int]s of
    32 bits. *)
Definition INT_MIN : Z := - 2 ^ 31.
Definition INT_MAX : Z := 2 ^ 31 - 1.

Definition fits_int (n : Z) : bool := (INT_MIN <=? n) && (n <=? INT_MAX).

(** [date(y, m, d)]: [OverflowError] when an argument does not fit a C
    [int], then [ValueError] outside the calendar. *)
Definition mk_date (y m d : Z) : py date :=
  if fits_int y && fits_int m && fits_int d then
    if valid_date (Date y m d) then ret (Date y m d) else raise ValueError
  else raise OverflowError.

(** Dates compare as the triples (year, month, day). *)
Definition date_lt (a b : date) : bool :=
  (year a <? year b) ||
  ((year a =? year b) &&
   ((month a <? month b) || ((month a =? month b) && (day a <? day b)))).

Definition date_le (a b : date) : bool := negb (date_lt b a).

(** [max(a, b)] on dates: [b] when [b > a], else [a]. *)
Definition date_max (a b : date) : date := if date_lt a b then b else a.

(** [d.toordinal()]: the number of the day, 1 for 1 January of year 1. *)
Definition days_before_year (y : Z) : Z :=
  (y - 1) * 365 + (y - 1) / 4 - (y - 1) / 100 + (y - 1) / 400.

Definition days_before_month (y m : Z) : Z :=
  fold_right Z.add 0 (firstn (Z.to_nat (m - 1)) (month_table y)).

Definition toordinal (d : date) : Z :=
  days_before_year (year d) + days_before_month (year d) (month d) + day d.

(** [(b - a).days] *)
Definition sub_days (b a : date) : Z := toordinal b - toordinal a.

(** ** The helpers of [app.py] *)

(** [days_inclusive(start, end)] *)
Definition days_inclusive (start end_ : option date) : Z :=
  match start, end_ with
  | Some s, Some e => if date_lt e s then 0 else sub_days e s + 1
  | _, _ => 0
  end.

(** [add_months(d, months)]; [//] and [%] of Python are the floor division
    and its remainder, [Z.div] and [Z.modulo]. *)
Definition add_months (d : date) (months : Z) : py date :=
  let y := year d + (month d - 1 + months) / 12 in
  let m := (month d - 1 + months) mod 12 + 1 in
  let day' := Z.min (day d) (nth (Z.to_nat (m - 1)) (month_table y) 0) in
  mk_date y m day'.

(* ===================================================================== *)
(** * Form fields *)
(* ===================================================================== *)

(** What [params.get(key)] and the readers of Python make of one entry of
    the mapping.  [parse_float] reads the text with
    [float(str(s).replace(",", ".").strip())] and [parse_date] with
    [[int(p) for p in s.split("-")]]; both catch every exception of the
    reader.
    - [Absent]: the mapping has no such key;
    - [Unreadable]: the text is empty, or the reader raised;
    - [Read a]: the reader returned [a] (any float, NaN and the infinities
      included, for [float]; the list of the ints between the dashes for a
      date). *)
Inductive field (A : Type) : Type :=
| Absent
| Unreadable
| Read (a : A).

Arguments Absent {A}.
Arguments Unreadable {A}.
Arguments Read {A} a.

(** [params.get(key, default)] *)
Definition get_or {A : Type} (f dflt : field A) : field A :=
  match f with
  | Absent => dflt
  | _ => f
  end.

(** [parse_float(s, default)] *)
Definition parse_float (s : field float) (default : float) : float :=
  match s with
  | Read x => x
  | _ => default
  end.

(** [parse_date(s, default)].  [date(parts[0], parts[1], parts[2])] raises
    [IndexError] on fewer than three parts, and [OverflowError] or
    [ValueError] outside the calendar, all caught; parts after the third
    are ignored.  Every call of the source passes a date as [default], so
    the result is a date. *)
Definition parse_date (s : field (list Z)) (default : date) : date :=
  match s with
  | Read (y :: m :: d :: _) =>
      match mk_date y m d with
      | inr dt => dt
      | inl _ => default
      end
  | _ => default
  end.

Module Params.
(** The mapping [params], one field per key that [calculate] reads. *)
Record t : Type := Make {
  share_pct : field float;
  calc_start : field (list Z);
  join_date : field (list Z);
  projection_start : field (list Z);
  projection_months : field float;
  director_start : field (list Z);
  past_cash_total : field float;
  portal_val : field float;
  finance_val : field float;
  website_val : field float;
  monthly_ops : field float;
  legal_fee : field float;
  legal_fee_date : field (list Z);
  director_salary_year : field float;
  riv_bootcamp_start : field (list Z);
  riv_bootcamp_per_year : field float;
  riv_bootcamp_amount : field float;
  riv_coaching_start : field (list Z);
  riv_coaching_per_year : field float;
  riv_coaching_amount : field float;
  riv_llm_start : field (list Z);
  riv_llm_clients : field float;
  riv_llm_monthly : field float
}.
End Params.

(* ===================================================================== *)
(** * The result of [calculate] *)
(* ===================================================================== *)

(** The keys of the three [components] dicts.  The source builds each key
    as a text from the values listed here; the embedding keeps the values
    and leaves the formatting out.  Inside one dict the keys start with
    different words, so no entry overwrites another. *)
Inductive label : Type :=
| PastCash                        (* "Past cash (you paid)" *)
| AssetsValuation                 (* "Assets valuation (...)" *)
| OpsFromTo (from to : date)      (* "Ops (from .. to ..)" *)
| DirectorFromTo (from to : date) (* "Director time (from .. to ..)" *)
| LegalFeePast                    (* "Legal fee (<= join date)" *)
| OpsMonths (n : Z)               (* "Ops (n months)" *)
| DirectorMonths (n : Z)          (* "Director time (n months)" *)
| LegalFeeWindow                  (* "Legal fee within projection window" *)
| Bootcamps (per_year : float) (from : date)
                                  (* "Bootcamps (../yr from ..)" *)
| Sessions (per_year : float) (from : date)
                                  (* "1:1 sessions (../yr from ..)" *)
| LlmSubscriptions (clients monthly : float) (from : date).
                                  (* "LLM analysis subscriptions (..)" *)

(** The fixed words a key starts with. *)
Inductive kind : Type :=
| KPastCash | KAssets | KOps | KDirector | KLegalPast
| KOpsMonths | KDirectorMonths | KLegalWindow
| KBootcamps | KSessions | KLlm.

Definition kind_of (l : label) : kind :=
  match l with
  | PastCash => KPastCash
  | AssetsValuation => KAssets
  | OpsFromTo _ _ => KOps
  | DirectorFromTo _ _ => KDirector
  | LegalFeePast => KLegalPast
  | OpsMonths _ => KOpsMonths
  | DirectorMonths _ => KDirectorMonths
  | LegalFeeWindow => KLegalWindow
  | Bootcamps _ _ => KBootcamps
  | Sessions _ _ => KSessions
  | LlmSubscriptions _ _ _ => KLlm
  end.

Definition kind_eqb (a b : kind) : bool :=
  match a, b with
  | KPastCash, KPastCash | KAssets, KAssets | KOps, KOps
  | KDirector, KDirector | KLegalPast, KLegalPast
  | KOpsMonths, KOpsMonths | KDirectorMonths, KDirectorMonths
  | KLegalWindow, KLegalWindow | KBootcamps, KBootcamps
  | KSessions, KSessions | KLlm, KLlm => true
  | _, _ => false
  end.

(** A dict in insertion order. *)
Definition components : Type := list (label * float).

(** The entry of a dict whose key starts with the words of [k]. *)
Fixpoint component (k : kind) (c : components) : option float :=
  match c with
  | [] => None
  | (l, v) :: c' => if kind_eqb (kind_of l) k then Some v else component k c'
  end.

(** [sum(c.values())]: the additions from the left, starting from the int
    [0].  (From CPython 3.12 on [sum] adds a compensation term to a float
    total; the embedding follows the plain left-to-right sum.) *)
Definition sum_values (c : components) : float :=
  fold_left (fun acc lv => fadd acc (snd lv)) c (of_int 0).

Module Inputs.
Record t : Type := Make {
  share_pct : float;
  calc_start : date;
  join_date : date;
  projection_start : date;
  projection_months : Z;
  director_start : date;
  past_cash_total : float;
  portal_val : float;
  finance_val : float;
  website_val : float;
  monthly_ops : float;
  legal_fee : float;
  legal_fee_date : option date;
  director_salary_year : float;
  bootcamp_start : option date;
  bootcamp_per_year : float;
  bootcamp_amount : float;
  coaching_start : option date;
  coaching_per_year : float;
  coaching_amount : float;
  llm_start : option date;
  llm_clients : float;
  llm_monthly : float
}.
End Inputs.

Module Past.
Record t : Type := Make {
  components : components;
  company_total : float;
  friend_total : float
}.
End Past.

Module Riv.
Record t : Type := Make {
  components : components;
  company_total : float;
  friend_total : float
}.
End Riv.

Module Projection.
Record t : Type := Make {
  components : components;
  company_total : float;
  friend_total : float;
  friend_avg_month : float;
  window_start : date;
  window_end : date;
  riv : Riv.t
}.
End Projection.

Module Summary.
Record t : Type := Make {
  friend_due_to_join : float;
  friend_future : Z * float;   (* the key "friend_future_{n}m": n, value *)
  friend_total_all : float;
  friend_riv_projection : float;
  friend_net_after_riv : float
}.
End Summary.

Record result : Type := Result {
  inputs : Inputs.t;
  past : Past.t;
  projection : Projection.t;
  summary : Summary.t
}.

(* ===================================================================== *)
(** * The calculator *)
(* ===================================================================== *)

(** The local function [riv_component] of [calculate]; the three variables
    it takes from the enclosing call come first. *)
Definition riv_component (projection_months : Z) (proj_start proj_end : date)
    (lbl : label) (start_dt : option date) (annual_revenue : float)
    : label * float :=
  match start_dt with
  | None => (lbl, zero)
  | Some start =>
      if projection_months <=? 0 then (lbl, zero)
      else if date_lt proj_end start then (lbl, zero)
      else
        let active_start := date_max start proj_start in
        let active_days := days_inclusive (Some active_start) (Some proj_end) in
        if active_days <=? 0 then (lbl, zero)
        else
          let daily_revenue := fdiv annual_revenue f365_25 in
          (lbl, fmul daily_revenue (of_int active_days))
  end.

(** [calculate(params)]; [today] is what [date.today()] returns during the
    call. *)
Definition calculate (today : date) (params : Params.t) : py result :=
  let share_pct :=
    fdiv (parse_float (get_or (Params.share_pct params) (Read (lit 40 0))) zero)
         f100 in
  let calc_start := parse_date (Params.calc_start params) (Date 2024 9 1) in
  let join_date := parse_date (Params.join_date params) today in
  let projection_start :=
    parse_date (Params.projection_start params) (Date 2026 1 1) in
  projection_months <-
    int_of_float
      (parse_float (get_or (Params.projection_months params) (Read (lit 24 0)))
                   (lit 24 0)) ;;
  let director_start :=
    parse_date (Params.director_start params) (Date 2025 1 1) in
  let past_cash_total := parse_float (Params.past_cash_total params) zero in
  let portal_val := parse_float (Params.portal_val params) zero in
  let finance_val := parse_float (Params.finance_val params) zero in
  let website_val := parse_float (Params.website_val params) zero in
  let monthly_ops := parse_float (Params.monthly_ops params) zero in
  let legal_fee := parse_float (Params.legal_fee params) zero in
  let legal_fee_date :=
    Some (parse_date (Params.legal_fee_date params) (Date 2026 1 1)) in
  let director_salary_year :=
    parse_float (Params.director_salary_year params) (lit 56000 0) in
  let bootcamp_start :=
    Some (parse_date (Params.riv_bootcamp_start params) projection_start) in
  let bootcamp_per_year :=
    parse_float (Params.riv_bootcamp_per_year params) (lit 4 0) in
  let bootcamp_amount :=
    parse_float (Params.riv_bootcamp_amount params) (lit 7000 0) in
  let coaching_start :=
    Some (parse_date (Params.riv_coaching_start params) projection_start) in
  let coaching_per_year :=
    parse_float (Params.riv_coaching_per_year params) (lit 12 0) in
  let coaching_amount :=
    parse_float (Params.riv_coaching_amount params) (lit 900 0) in
  let llm_start :=
    Some (parse_date (Params.riv_llm_start params) projection_start) in
  let llm_clients := parse_float (Params.riv_llm_clients params) (lit 1 0) in
  let llm_monthly := parse_float (Params.riv_llm_monthly params) (lit 300 0) in
  (* past period *)
  let past_period_days := days_inclusive (Some calc_start) (Some join_date) in
  let per_day_ops := fdiv (fmul monthly_ops f12) f365_25 in
  let past_ops_cost := fmul per_day_ops (of_int past_period_days) in
  let director_days_past :=
    days_inclusive (Some (date_max director_start calc_start))
                   (Some join_date) in
  let per_day_director := fdiv director_salary_year f365_25 in
  let past_director_cost := fmul per_day_director (of_int director_days_past) in
  let past_legal :=
    match legal_fee_date with
    | Some lfd => if date_le lfd join_date then legal_fee else zero
    | None => zero
    end in
  let assets_total := fadd (fadd portal_val finance_val) website_val in
  let past_total_company :=
    fadd (fadd (fadd (fadd past_cash_total assets_total) past_ops_cost)
               past_director_cost)
         past_legal in
  let past_total_friend := fmul past_total_company share_pct in
  (* projection *)
  let proj_start := projection_start in
  proj_end <- add_months proj_start projection_months ;;
  let proj_ops_cost := fmul monthly_ops (of_int projection_months) in
  let proj_director_cost :=
    fmul director_salary_year (fdiv (of_int projection_months) f12) in
  let proj_legal :=
    match legal_fee_date with
    | Some lfd =>
        if date_le proj_start lfd && date_le lfd proj_end then legal_fee
        else zero
    | None => zero
    end in
  let proj_total_company :=
    fadd (fadd proj_ops_cost proj_director_cost) proj_legal in
  let proj_total_friend := fmul proj_total_company share_pct in
  let proj_avg_month_friend :=
    if 0 <? projection_months
    then fdiv proj_total_friend (of_int projection_months)
    else zero in
  let past_components :=
    [ (PastCash, past_cash_total);
      (AssetsValuation, assets_total);
      (OpsFromTo calc_start join_date, past_ops_cost);
      (DirectorFromTo (date_max director_start calc_start) join_date,
       past_director_cost);
      (LegalFeePast, past_legal) ] in
  let proj_components :=
    [ (OpsMonths projection_months, proj_ops_cost);
      (DirectorMonths projection_months, proj_director_cost);
      (LegalFeeWindow, proj_legal) ] in
  (* revenue projection *)
  let riv := riv_component projection_months proj_start proj_end in
  let bootcamp_label :=
    Bootcamps bootcamp_per_year
      (parse_date (Params.riv_bootcamp_start params) projection_start) in
  let coaching_label :=
    Sessions coaching_per_year
      (parse_date (Params.riv_coaching_start params) projection_start) in
  let llm_label :=
    LlmSubscriptions llm_clients llm_monthly
      (parse_date (Params.riv_llm_start params) projection_start) in
  let bootcamp_revenue :=
    riv bootcamp_label bootcamp_start
        (fmul bootcamp_per_year bootcamp_amount) in
  let coaching_revenue :=
    riv coaching_label coaching_start
        (fmul coaching_per_year coaching_amount) in
  let llm_revenue :=
    riv llm_label llm_start (fmul (fmul llm_clients llm_monthly) f12) in
  let riv_components := [bootcamp_revenue; coaching_revenue; llm_revenue] in
  let riv_total_company := sum_values riv_components in
  let riv_total_friend := fmul riv_total_company share_pct in
  ret {|
    inputs := {|
      Inputs.share_pct := fmul share_pct f100;
      Inputs.calc_start := calc_start;
      Inputs.join_date := join_date;
      Inputs.projection_start := proj_start;
      Inputs.projection_months := projection_months;
      Inputs.director_start := director_start;
      Inputs.past_cash_total := past_cash_total;
      Inputs.portal_val := portal_val;
      Inputs.finance_val := finance_val;
      Inputs.website_val := website_val;
      Inputs.monthly_ops := monthly_ops;
      Inputs.legal_fee := legal_fee;
      Inputs.legal_fee_date := legal_fee_date;
      Inputs.director_salary_year := director_salary_year;
      Inputs.bootcamp_start := bootcamp_start;
      Inputs.bootcamp_per_year := bootcamp_per_year;
      Inputs.bootcamp_amount := bootcamp_amount;
      Inputs.coaching_start := coaching_start;
      Inputs.coaching_per_year := coaching_per_year;
      Inputs.coaching_amount := coaching_amount;
      Inputs.llm_start := llm_start;
      Inputs.llm_clients := llm_clients;
      Inputs.llm_monthly := llm_monthly |};
    past := {|
      Past.components := past_components;
      Past.company_total := past_total_company;
      Past.friend_total := past_total_friend |};
    projection := {|
      Projection.components := proj_components;
      Projection.company_total := proj_total_company;
      Projection.friend_total := proj_total_friend;
      Projection.friend_avg_month := proj_avg_month_friend;
      Projection.window_start := proj_start;
      Projection.window_end := proj_end;
      Projection.riv := {|
        Riv.components := riv_components;
        Riv.company_total := riv_total_company;
        Riv.friend_total := riv_total_friend |} |};
    summary := {|
      Summary.friend_due_to_join := past_total_friend;
      Summary.friend_future := (projection_months, proj_total_friend);
      Summary.friend_total_all := fadd past_total_friend proj_total_friend;
      Summary.friend_riv_projection := riv_total_friend;
      Summary.friend_net_after_riv :=
        fsub (fadd past_total_friend proj_total_friend) riv_total_friend |}
  |}.

(* ===================================================================== *)
(** * Inputs used as examples *)
(* ===================================================================== *)

(** The text of a whole number, read by [float]. *)
Definition F (n : Z) : field float := Read (lit n 0).

(** [d.isoformat()], read back by [parse_date]. *)
Definition iso (d : date) : field (list Z) := Read [year d; month d; day d].

(** [base_defaults] of [index()], the mapping the page is computed from on
    a GET request. *)
Definition base_defaults (today : date) : Params.t :=
  {| Params.share_pct := F 40;
     Params.calc_start := Read [2024; 9; 1];
     Params.join_date := iso today;
     Params.projection_start := Read [2026; 1; 1];
     Params.projection_months := F 24;
     Params.director_start := Read [2025; 1; 1];
     Params.past_cash_total := F 4000;
     Params.portal_val := F 6000;
     Params.finance_val := F 5000;
     Params.website_val := F 2000;
     Params.monthly_ops := F 500;
     Params.legal_fee := F 2500;
     Params.legal_fee_date := Read [2026; 1; 15];
     Params.director_salary_year := F 56000;
     Params.riv_bootcamp_start := Read [2026; 2; 1];
     Params.riv_bootcamp_per_year := F 4;
     Params.riv_bootcamp_amount := F 7000;
     Params.riv_coaching_start := Read [2026; 1; 15];
     Params.riv_coaching_per_year := F 20;
     Params.riv_coaching_amount := F 900;
     Params.riv_llm_start := Read [2026; 3; 1];
     Params.riv_llm_clients := F 5;
     Params.riv_llm_monthly := F 300 |}.

(** A POST request sends every key of [base_defaults]; the four functions
    below change the text of one of them. *)
Definition set_join_date (v : field (list Z)) (p : Params.t) : Params.t :=
  Params.Make (Params.share_pct p) (Params.calc_start p) v
    (Params.projection_start p) (Params.projection_months p)
    (Params.director_start p) (Params.past_cash_total p) (Params.portal_val p)
    (Params.finance_val p) (Params.website_val p) (Params.monthly_ops p)
    (Params.legal_fee p) (Params.legal_fee_date p)
    (Params.director_salary_year p) (Params.riv_bootcamp_start p)
    (Params.riv_bootcamp_per_year p) (Params.riv_bootcamp_amount p)
    (Params.riv_coaching_start p) (Params.riv_coaching_per_year p)
    (Params.riv_coaching_amount p) (Params.riv_llm_start p)
    (Params.riv_llm_clients p) (Params.riv_llm_monthly p).

Definition set_projection_months (v : field float) (p : Params.t)
    : Params.t :=
  Params.Make (Params.share_pct p) (Params.calc_start p) (Params.join_date p)
    (Params.projection_start p) v
    (Params.director_start p) (Params.past_cash_total p) (Params.portal_val p)
    (Params.finance_val p) (Params.website_val p) (Params.monthly_ops p)
    (Params.legal_fee p) (Params.legal_fee_date p)
    (Params.director_salary_year p) (Params.riv_bootcamp_start p)
    (Params.riv_bootcamp_per_year p) (Params.riv_bootcamp_amount p)
    (Params.riv_coaching_start p) (Params.riv_coaching_per_year p)
    (Params.riv_coaching_amount p) (Params.riv_llm_start p)
    (Params.riv_llm_clients p) (Params.riv_llm_monthly p).

Definition set_monthly_ops (v : field float) (p : Params.t) : Params.t :=
  Params.Make (Params.share_pct p) (Params.calc_start p) (Params.join_date p)
    (Params.projection_start p) (Params.projection_months p)
    (Params.director_start p) (Params.past_cash_total p) (Params.portal_val p)
    (Params.finance_val p) (Params.website_val p) v
    (Params.legal_fee p) (Params.legal_fee_date p)
    (Params.director_salary_year p) (Params.riv_bootcamp_start p)
    (Params.riv_bootcamp_per_year p) (Params.riv_bootcamp_amount p)
    (Params.riv_coaching_start p) (Params.riv_coaching_per_year p)
    (Params.riv_coaching_amount p) (Params.riv_llm_start p)
    (Params.riv_llm_clients p) (Params.riv_llm_monthly p).

Definition set_legal_fee_date (v : field (list Z)) (p : Params.t)
    : Params.t :=
  Params.Make (Params.share_pct p) (Params.calc_start p) (Params.join_date p)
    (Params.projection_start p) (Params.projection_months p)
    (Params.director_start p) (Params.past_cash_total p) (Params.portal_val p)
    (Params.finance_val p) (Params.website_val p) (Params.monthly_ops p)
    (Params.legal_fee p) v
    (Params.director_salary_year p) (Params.riv_bootcamp_start p)
    (Params.riv_bootcamp_per_year p) (Params.riv_bootcamp_amount p)
    (Params.riv_coaching_start p) (Params.riv_coaching_per_year p)
    (Params.riv_coaching_amount p) (Params.riv_llm_start p)
    (Params.riv_llm_clients p) (Params.riv_llm_monthly p).

(** A form with a share of 40 percent, a director salary of 0 and every
    other field left empty: no cost at all, and the revenue streams at
    their defaults. *)
Definition no_costs : Params.t :=
  Params.Make (F 40) Unreadable Unreadable Unreadable Unreadable Unreadable
    Unreadable Unreadable Unreadable Unreadable Unreadable Unreadable
    Unreadable (F 0) Unreadable Unreadable Unreadable Unreadable Unreadable
    Unreadable Unreadable Unreadable Unreadable.

(** A form with every field left empty. *)
Definition all_empty : Params.t :=
  Params.Make Unreadable Unreadable Unreadable Unreadable Unreadable
    Unreadable Unreadable Unreadable Unreadable Unreadable Unreadable
    Unreadable Unreadable Unreadable Unreadable Unreadable Unreadable
    Unreadable Unreadable Unreadable Unreadable Unreadable Unreadable.

Definition a_day : date := Date 2026 11 3.
Definition the_next_day : date := Date 2026 11 4.
Definition a_day_before_the_projection : date := Date 2025 6 1.

(** The past of the page's defaults with another projection: 6 months
    from 1 July 2027, and no key for the revenue streams. *)
Definition other_projection : Params.t :=
  Params.Make (F 40) (Read [2024; 9; 1]) (iso a_day) (Read [2027; 7; 1])
    (F 6) (Read [2025; 1; 1]) (F 4000) (F 6000) (F 5000) (F 2000)
    (F 500) (F 2500) (Read [2026; 1; 15]) (F 56000) Absent Absent
    Absent Absent Absent Absent Absent Absent Absent.

(* ===================================================================== *)
(** * Notions used in the statements *)
(* ===================================================================== *)

Definition days_in_year (y : Z) : Z := if is_leap y then 366 else 365.

(** The day after [d] in the calendar. *)
Definition next_day (d : date) : date :=
  if day d <? days_in_month (year d) (month d)
  then Date (year d) (month d) (day d + 1)
  else if month d <? 12 then Date (year d) (month d + 1) 1
  else Date (year d + 1) 1 1.

(** [x] is NaN or carries the sign [s]. *)
Definition signed (s : bool) (x : float) : Prop :=
  match x with
  | S754_nan => True
  | S754_zero s' | S754_infinity s' | S754_finite s' _ _ => s' = s
  end.

(** The share in percent that [calculate] reads: the text of the field,
    ["40"] when the key is absent, [0.0] when the text cannot be read. *)
Definition share_percent (params : Params.t) : float :=
  parse_float (get_or (Params.share_pct params) (Read (lit 40 0))) zero.

(** The months count as a float, before [int] truncates it. *)
Definition months_read (params : Params.t) : float :=
  parse_float (get_or (Params.projection_months params) (Read (lit 24 0)))
              (lit 24 0).

(** The sum of the entries of a dict in their order, without a start
    value: [v1 + v2 + ... + vn]. *)
Definition add_up (c : components) : float :=
  match c with
  | [] => zero
  | (_, v) :: c' => fold_left (fun acc lv => fadd acc (snd lv)) c' v
  end.

(** Every numeric input is [>= 0]. *)
Definition inputs_nonneg (share : float) (i : Inputs.t) : Prop :=
  nonneg share /\
  nonneg (Inputs.past_cash_total i) /\
  nonneg (Inputs.portal_val i) /\
  nonneg (Inputs.finance_val i) /\
  nonneg (Inputs.website_val i) /\
  nonneg (Inputs.monthly_ops i) /\
  nonneg (Inputs.legal_fee i) /\
  nonneg (Inputs.director_salary_year i) /\
  nonneg (Inputs.bootcamp_per_year i) /\
  nonneg (Inputs.bootcamp_amount i) /\
  nonneg (Inputs.coaching_per_year i) /\
  nonneg (Inputs.coaching_amount i) /\
  nonneg (Inputs.llm_clients i) /\
  nonneg (Inputs.llm_monthly i) /\
  0 <= Inputs.projection_months i.

(** Two mappings agree on the share and on every field of the past
    period. *)
Definition same_past_fields (p1 p2 : Params.t) : Prop :=
  Params.share_pct p1 = Params.share_pct p2 /\
  Params.calc_start p1 = Params.calc_start p2 /\
  Params.join_date p1 = Params.join_date p2 /\
  Params.director_start p1 = Params.director_start p2 /\
  Params.past_cash_total p1 = Params.past_cash_total p2 /\
  Params.portal_val p1 = Params.portal_val p2 /\
  Params.finance_val p1 = Params.finance_val p2 /\
  Params.website_val p1 = Params.website_val p2 /\
  Params.monthly_ops p1 = Params.monthly_ops p2 /\
  Params.legal_fee p1 = Params.legal_fee p2 /\
  Params.legal_fee_date p1 = Params.legal_fee_date p2 /\
  Params.director_salary_year p1 = Params.director_salary_year p2.

(* ===================================================================== *)
(** * Texts *)
(* ===================================================================== *)

(** A Python [str] is the list of its code points.  The functions of this
    module are those of [str] and of the format language that [app.py]
    calls; [float] and [int], which read a text, are parameters. *)
Module Text.

Definition text : Type := list N.

Definition comma : N := 44.       (* "," *)
Definition minus : N := 45.       (* "-" *)
Definition dot : N := 46.         (* "." *)
Definition letter_X : N := 88.    (* "X" *)
Definition euro : N := 8364.      (* the euro sign *)
Definition digit_0 : N := 48.     (* "0" *)

(** [c.isspace()]: the characters that [strip()] removes. *)
Definition is_space (c : N) : bool :=
  ((9 <=? c) && (c <=? 13))%N || ((28 <=? c) && (c <=? 32))%N ||
  (c =? 133)%N || (c =? 160)%N || (c =? 5760)%N ||
  ((8192 <=? c) && (c <=? 8202))%N ||
  (c =? 8232)%N || (c =? 8233)%N || (c =? 8239)%N || (c =? 8287)%N ||
  (c =? 12288)%N.

Fixpoint lstrip (t : text) : text :=
  match t with
  | c :: t' => if is_space c then lstrip t' else t
  | [] => []
  end.

Definition rstrip (t : text) : text := rev (lstrip (rev t)).

(** [t.strip()] *)
Definition strip (t : text) : text := rstrip (lstrip t).

(** [t.replace(old, new)] for two texts of one character. *)
Definition replace (old new : N) (t : text) : text :=
  map (fun c => if (c =? old)%N then new else c) t.

(** [t.split(sep)] for a separator of one character. *)
Fixpoint split (sep : N) (t : text) : list text :=
  match t with
  | [] => [[]]
  | c :: t' =>
      if (c =? sep)%N then [] :: split sep t'
      else match split sep t' with
           | p :: ps => (c :: p) :: ps
           | [] => [[c]]
           end
  end.

(** A text of whitespace only. *)
Definition spaces (ws : text) : Prop :=
  Forall (fun c => is_space c = true) ws.

(** ** Numbers as texts *)

(** The ten ASCII digits. *)
Definition is_digit (c : N) : bool := ((48 <=? c) && (c <=? 57))%N.

Fixpoint uint_text (u : Decimal.uint) : text :=
  match u with
  | Decimal.Nil => []
  | Decimal.D0 u => 48%N :: uint_text u
  | Decimal.D1 u => 49%N :: uint_text u
  | Decimal.D2 u => 50%N :: uint_text u
  | Decimal.D3 u => 51%N :: uint_text u
  | Decimal.D4 u => 52%N :: uint_text u
  | Decimal.D5 u => 53%N :: uint_text u
  | Decimal.D6 u => 54%N :: uint_text u
  | Decimal.D7 u => 55%N :: uint_text u
  | Decimal.D8 u => 56%N :: uint_text u
  | Decimal.D9 u => 57%N :: uint_text u
  end.

(** A text of digits only. *)
Definition digits (t : text) : Prop := Forall (fun c => is_digit c = true) t.

(** The decimal digits of an int that is not negative: ["%d" % n]. *)
Definition decimal_text (n : Z) : text := uint_text (N.to_uint (Z.to_N n)).

(** ["%0{width}d" % n] *)
Definition zero_padded (width : nat) (n : Z) : text :=
  let ds := decimal_text n in
  repeat digit_0 (width - length ds) ++ ds.

(** The digits of an int from the right, a comma after every third one
    that has a digit to its left. *)
Fixpoint group_rev (ds : text) : text :=
  match ds with
  | a :: b :: c :: ((_ :: _) as rest) =>
      a :: b :: c :: comma :: group_rev rest
  | _ => ds
  end.

Definition grouped (ds : text) : text := rev (group_rev (rev ds)).

(** The integer nearest to [m * 2^e], the even one of two that are
    equally near. *)
Definition round_half_even (m e : Z) : Z :=
  if 0 <=? e then m * 2 ^ e
  else
    let d := 2 ^ (- e) in
    let q := m / d in
    let r := m mod d in
    match 2 * r ?= d with
    | Lt => q
    | Gt => q + 1
    | Eq => if Z.even q then q else q + 1
    end.

Definition sign_text (s : bool) : text := if s then [minus] else [].

(** [f"{x:,.2f}"]: the float rounded to two decimals, half to even on its
    exact value, with a comma between the thousands of the integer part;
    ["nan"], ["inf"] and ["-inf"] for the floats that are no numbers. *)
Definition format_2f (x : float) : text :=
  match x with
  | S754_nan => [110; 97; 110]%N
  | S754_infinity s => sign_text s ++ [105; 110; 102]%N
  | S754_zero s => sign_text s ++ [digit_0; dot; digit_0; digit_0]
  | S754_finite s m e =>
      let n := round_half_even (Zpos m * 100) e in
      sign_text s ++ grouped (decimal_text (n / 100))
        ++ [dot] ++ zero_padded 2 (n mod 100)
  end.

(** [d.isoformat()]: ["%04d-%02d-%02d" % (year, month, day)]. *)
Definition isoformat (d : date) : text :=
  zero_padded 4 (year d) ++ [minus] ++ zero_padded 2 (month d)
    ++ [minus] ++ zero_padded 2 (day d).

(** ** The readers of [app.py] on texts *)

Section Readers.

(** [float(t)] and [int(t)] of Python: [None] when they raise. *)
Variable py_float : text -> option float.
Variable py_int : text -> option Z.

(** What [parse_float] makes of [params.get(key)]: the [field] that the
    calculator works with. *)
Definition read_float (s : option text) : field float :=
  match s with
  | None => Absent
  | Some t =>
      match strip t with
      | [] => Unreadable
      | _ :: _ =>
          match py_float (strip (replace comma dot t)) with
          | Some x => Read x
          | None => Unreadable
          end
      end
  end.

(** [parse_float(s, default)]: [None] and a blank text give [default];
    otherwise [float] reads the text with its commas turned into dots and
    its ends stripped, and [default] stands in when [float] raises. *)
Definition parse_float (s : option text) (default : float) : float :=
  match s with
  | None => default
  | Some t =>
      match strip t with
      | [] => default
      | _ :: _ =>
          match py_float (strip (replace comma dot t)) with
          | Some x => x
          | None => default
          end
      end
  end.

(** [[int(p) for p in parts]]: raises as soon as one [int] raises. *)
Fixpoint ints (parts : list text) : option (list Z) :=
  match parts with
  | [] => Some []
  | p :: parts' =>
      match py_int p with
      | None => None
      | Some n =>
          match ints parts' with
          | None => None
          | Some ns => Some (n :: ns)
          end
      end
  end.

Definition read_date (s : option text) : field (list Z) :=
  match s with
  | None => Absent
  | Some [] => Unreadable
  | Some t =>
      match ints (split minus t) with
      | Some ns => Read ns
      | None => Unreadable
      end
  end.

(** [parse_date(s, default)]: [None] and the empty text give [default];
    so does every exception of [int] and of [date]. *)
Definition parse_date (s : option text) (default : date) : date :=
  match s with
  | None => default
  | Some [] => default
  | Some t =>
      match ints (split minus t) with
      | Some (y :: m :: d :: _) =>
          match mk_date y m d with
          | inr dt => dt
          | inl _ => default
          end
      | _ => default
      end
  end.

End Readers.

(** An [int] for texts of ASCII digits only, used as an instance of the
    parameter [py_int]. *)
Fixpoint digits_value (acc : Z) (t : text) : option Z :=
  match t with
  | [] => Some acc
  | c :: t' =>
      if is_digit c
      then digits_value (10 * acc + (Z.of_N c - 48)) t'
      else None
  end.

Definition ascii_int (t : text) : option Z :=
  match t with
  | [] => None
  | _ :: _ => digits_value 0 t
  end.

End Text.

(** [eur(x)]: the amount in the format of the page, a dot between the
    thousands and a comma before the cents. *)
Definition eur (x : float) : Text.text :=
  Text.replace Text.letter_X Text.dot
    (Text.replace Text.dot Text.comma
       (Text.replace Text.comma Text.letter_X
          (Text.euro :: Text.format_2f x))).

(** The characters of an amount before [eur] exchanges them: digits, the
    two separators and the minus sign. *)
Definition amount_char (c : N) : bool :=
  Text.is_digit c || (c =? Text.comma)%N || (c =? Text.dot)%N
  || (c =? Text.minus)%N.

(** The floats that are numbers. *)
Definition is_number (x : float) : bool :=
  match x with
  | S754_zero _ | S754_finite _ _ _ => true
  | _ => false
  end.

(** The exchange of commas and dots. *)
Definition swap_separators (c : N) : N :=
  if (c =? Text.comma)%N then Text.dot
  else if (c =? Text.dot)%N then Text.comma
  else c.

(* ===================================================================== *)
(** * The page *)
(* ===================================================================== *)

(** [request.method]; Flask serves HEAD as GET. *)
Inductive method : Type := GET | POST.

(** [request.form.get(k, "")]: a key that the form lacks reads as the
    empty text. *)
Definition form_get {A : Type} (f : field A) : field A :=
  match f with
  | Absent => Unreadable
  | _ => f
  end.

(** [{k: request.form.get(k, "") for k in base_defaults.keys()}] *)
Definition post_params (form : Params.t) : Params.t :=
  Params.Make
    (form_get (Params.share_pct form))
    (form_get (Params.calc_start form))
    (form_get (Params.join_date form))
    (form_get (Params.projection_start form))
    (form_get (Params.projection_months form))
    (form_get (Params.director_start form))
    (form_get (Params.past_cash_total form))
    (form_get (Params.portal_val form))
    (form_get (Params.finance_val form))
    (form_get (Params.website_val form))
    (form_get (Params.monthly_ops form))
    (form_get (Params.legal_fee form))
    (form_get (Params.legal_fee_date form))
    (form_get (Params.director_salary_year form))
    (form_get (Params.riv_bootcamp_start form))
    (form_get (Params.riv_bootcamp_per_year form))
    (form_get (Params.riv_bootcamp_amount form))
    (form_get (Params.riv_coaching_start form))
    (form_get (Params.riv_coaching_per_year form))
    (form_get (Params.riv_coaching_amount form))
    (form_get (Params.riv_llm_start form))
    (form_get (Params.riv_llm_clients form))
    (form_get (Params.riv_llm_monthly form)).

(** [fmt_components(d)] of [index()] *)
Definition fmt_components (d : components) : list (label * Text.text) :=
  map (fun kv => (fst kv, eur (snd kv))) d.

Module Display.
(** The dict [display] of [index()]; the window keeps its two dates. *)
Record t : Type := Make {
  inputs : Inputs.t;
  past_components : list (label * Text.text);
  past_company_total : Text.text;
  past_friend_total : Text.text;
  proj_components : list (label * Text.text);
  proj_company_total : Text.text;
  proj_friend_total : Text.text;
  proj_friend_avg_month : Text.text;
  proj_window : date * date;
  riv_components : list (label * Text.text);
  riv_company_total : Text.text;
  riv_friend_total : Text.text;
  summary_friend_due_to_join : Text.text;
  summary_friend_future : Text.text;
  summary_friend_total_all : Text.text;
  summary_friend_riv : Text.text;
  summary_friend_net : Text.text
}.
End Display.

(** The value of [results] in [index()]: the calculation on the form of a
    POST request, on [base_defaults] otherwise. *)
Definition index_results (m : method) (today : date) (form : Params.t)
    : py result :=
  match m with
  | POST => calculate today (post_params form)
  | GET => calculate today (base_defaults today)
  end.

(** [index()] up to the call of [render_template]: the dict [display] it
    hands to the template.  [today] is the day of the request and [form]
    holds the fields of [request.form]. *)
Definition index (m : method) (today : date) (form : Params.t)
    : py Display.t :=
  results <- index_results m today form ;;
  ret {|
    Display.inputs := inputs results;
    Display.past_components :=
      fmt_components (Past.components (past results));
    Display.past_company_total := eur (Past.company_total (past results));
    Display.past_friend_total := eur (Past.friend_total (past results));
    Display.proj_components :=
      fmt_components (Projection.components (projection results));
    Display.proj_company_total :=
      eur (Projection.company_total (projection results));
    Display.proj_friend_total :=
      eur (Projection.friend_total (projection results));
    Display.proj_friend_avg_month :=
      eur (Projection.friend_avg_month (projection results));
    Display.proj_window :=
      (Projection.window_start (projection results),
       Projection.window_end (projection results));
    Display.riv_components :=
      fmt_components
        (Riv.components (Projection.riv (projection results)));
    Display.riv_company_total :=
      eur (Riv.company_total (Projection.riv (projection results)));
    Display.riv_friend_total :=
      eur (Riv.friend_total (Projection.riv (projection results)));
    Display.summary_friend_due_to_join :=
      eur (Summary.friend_due_to_join (summary results));
    Display.summary_friend_future :=
      eur (snd (Summary.friend_future (summary results)));
    Display.summary_friend_total_all :=
      eur (Summary.friend_total_all (summary results));
    Display.summary_friend_riv :=
      eur (Summary.friend_riv_projection (summary results));
    Display.summary_friend_net :=
      eur (Summary.friend_net_after_riv (summary results))
  |}.

(** The fields of the projection, for the statements about it. *)
Definition same_projection_fields (p1 p2 : Params.t) : Prop :=
  Params.share_pct p1 = Params.share_pct p2 /\
  Params.projection_start p1 = Params.projection_start p2 /\
  Params.projection_months p1 = Params.projection_months p2 /\
  Params.monthly_ops p1 = Params.monthly_ops p2 /\
  Params.legal_fee p1 = Params.legal_fee p2 /\
  Params.legal_fee_date p1 = Params.legal_fee_date p2 /\
  Params.director_salary_year p1 = Params.director_salary_year p2.

(** The fields of the revenue streams. *)
Definition same_revenue_fields (p1 p2 : Params.t) : Prop :=
  Params.share_pct p1 = Params.share_pct p2 /\
  Params.projection_start p1 = Params.projection_start p2 /\
  Params.projection_months p1 = Params.projection_months p2 /\
  Params.riv_bootcamp_start p1 = Params.riv_bootcamp_start p2 /\
  Params.riv_bootcamp_per_year p1 = Params.riv_bootcamp_per_year p2 /\
  Params.riv_bootcamp_amount p1 = Params.riv_bootcamp_amount p2 /\
  Params.riv_coaching_start p1 = Params.riv_coaching_start p2 /\
  Params.riv_coaching_per_year p1 = Params.riv_coaching_per_year p2 /\
  Params.riv_coaching_amount p1 = Params.riv_coaching_amount p2 /\
  Params.riv_llm_start p1 = Params.riv_llm_start p2 /\
  Params.riv_llm_clients p1 = Params.riv_llm_clients p2 /\
  Params.riv_llm_monthly p1 = Params.riv_llm_monthly p2.

(* ===================================================================== *)
(** * Facts about the calendar *)
(* ===================================================================== *)

Section Calendar.

Lemma month_cases (m : Z) :
  1 <= m <= 12 ->
  m = 1 \/ m = 2 \/ m = 3 \/ m = 4 \/ m = 5 \/ m = 6 \/
  m = 7 \/ m = 8 \/ m = 9 \/ m = 10 \/ m = 11 \/ m = 12.
Proof. lia. Qed.

Ltac each_month m H :=
  destruct (month_cases m H) as
    [?|[?|[?|[?|[?|[?|[?|[?|[?|[?|[?|?]]]]]]]]]]]; subst m.

Ltac eval_index :=
  repeat match goal with
  | |- context [Z.to_nat ?e] =>
      let v := eval vm_compute in (Z.to_nat e) in
      change (Z.to_nat e) with v
  end; cbn [nth firstn fold_right].

Lemma days_before_year_succ (y : Z) :
  days_before_year (y + 1) = days_before_year y + days_in_year y.
Proof.
  unfold days_before_year, days_in_year, is_leap.
  replace (y + 1 - 1) with y by lia.
  destruct (Z.eqb_spec (y mod 4) 0), (Z.eqb_spec (y mod 100) 0),
    (Z.eqb_spec (y mod 400) 0); cbn [andb orb negb];
    Z.to_euclidean_division_equations; lia.
Qed.

Lemma days_before_year_mono (y1 y2 : Z) :
  y1 <= y2 -> days_before_year y1 <= days_before_year y2.
Proof.
  unfold days_before_year. intros H.
  Z.to_euclidean_division_equations; lia.
Qed.

Lemma valid_date_spec (d : date) :
  valid_date d = true <->
  1 <= year d <= 9999 /\ 1 <= month d <= 12 /\
  1 <= day d <= days_in_month (year d) (month d).
Proof.
  unfold valid_date, MINYEAR, MAXYEAR.
  rewrite !andb_true_iff, !Z.leb_le. lia.
Qed.

Lemma days_in_month_bounds (y m : Z) :
  1 <= m <= 12 -> 28 <= days_in_month y m <= 31.
Proof.
  intros H. unfold days_in_month, month_table.
  each_month m H; eval_index; destruct (is_leap y); lia.
Qed.

Lemma days_before_month_bounds (y m : Z) :
  1 <= m <= 12 ->
  0 <= days_before_month y m /\
  days_before_month y m + days_in_month y m <= days_in_year y.
Proof.
  intros H. unfold days_before_month, days_in_month, days_in_year, month_table.
  each_month m H; eval_index; destruct (is_leap y); lia.
Qed.

Lemma days_before_month_succ (y m : Z) :
  1 <= m < 12 ->
  days_before_month y (m + 1) = days_before_month y m + days_in_month y m.
Proof.
  intros H. unfold days_before_month, days_in_month, month_table.
  assert (H' : 1 <= m <= 12) by lia.
  each_month m H'; eval_index; destruct (is_leap y); lia.
Qed.

Lemma days_before_month_mono (y m1 m2 : Z) :
  1 <= m1 <= 12 -> 1 <= m2 <= 12 -> m1 < m2 ->
  days_before_month y m1 + days_in_month y m1 <= days_before_month y m2.
Proof.
  intros H1 H2 Hlt. unfold days_before_month, days_in_month, month_table.
  each_month m1 H1; each_month m2 H2; try lia; eval_index;
    destruct (is_leap y); lia.
Qed.

Lemma date_lt_spec (a b : date) :
  date_lt a b = true <->
  year a < year b \/
  (year a = year b /\
   (month a < month b \/ (month a = month b /\ day a < day b))).
Proof.
  unfold date_lt.
  rewrite !orb_true_iff, !andb_true_iff, !orb_true_iff, !andb_true_iff,
    !Z.ltb_lt, !Z.eqb_eq. tauto.
Qed.

Theorem toordinal_lt (a b : date) :
  valid_date a = true -> valid_date b = true ->
  date_lt a b = true -> toordinal a < toordinal b.
Proof.
  intros Ha Hb Hlt.
  apply valid_date_spec in Ha. apply valid_date_spec in Hb.
  apply date_lt_spec in Hlt.
  destruct Ha as (Hya & Hma & Hda), Hb as (Hyb & Hmb & Hdb).
  unfold toordinal.
  pose proof (days_before_month_bounds (year a) _ Hma) as [Ha0 Ha1].
  pose proof (days_before_month_bounds (year b) _ Hmb) as [Hb0 Hb1].
  destruct Hlt as [Hy | [Hy [Hm | [Hm Hd]]]].
  - pose proof (days_before_year_succ (year a)) as Hs.
    pose proof (days_before_year_mono (year a + 1) (year b)) as Hmono.
    lia.
  - rewrite Hy in *.
    pose proof (days_before_month_mono (year b) _ _ Hma Hmb Hm). lia.
  - rewrite Hy, Hm. lia.
Qed.

Lemma date_lt_irrefl (d : date) : date_lt d d = false.
Proof.
  unfold date_lt. rewrite !Z.ltb_irrefl, !Z.eqb_refl. reflexivity.
Qed.

Lemma date_lt_asym (a b : date) : date_lt a b = true -> date_lt b a = false.
Proof.
  intros H. apply date_lt_spec in H.
  destruct (date_lt b a) eqn:E; [ | reflexivity ].
  apply date_lt_spec in E. lia.
Qed.

Lemma date_lt_trans (a b c : date) :
  date_lt a b = true -> date_lt b c = true -> date_lt a c = true.
Proof.
  rewrite !date_lt_spec. lia.
Qed.

(** The order of dates is total: two dates neither of which is before the
    other are the same date. *)
Lemma date_lt_total (a b : date) :
  date_lt a b = false -> date_lt b a = false -> a = b.
Proof.
  intros H1 H2.
  assert (N1 : ~ (date_lt a b = true)) by congruence.
  assert (N2 : ~ (date_lt b a = true)) by congruence.
  rewrite date_lt_spec in N1, N2.
  destruct a as [ya ma da], b as [yb mb db]; simpl in *.
  f_equal; lia.
Qed.

Lemma toordinal_le (a b : date) :
  valid_date a = true -> valid_date b = true ->
  date_lt b a = false -> toordinal a <= toordinal b.
Proof.
  intros Ha Hb H.
  destruct (date_lt a b) eqn:E.
  - pose proof (toordinal_lt a b Ha Hb E). lia.
  - rewrite (date_lt_total a b E H). lia.
Qed.

Lemma toordinal_next_day (d : date) :
  valid_date d = true -> toordinal (next_day d) = toordinal d + 1.
Proof.
  intros Hd. apply valid_date_spec in Hd. destruct Hd as (Hy & Hm & Hday).
  unfold next_day, toordinal.
  destruct (Z.ltb_spec (day d) (days_in_month (year d) (month d)));
    [ simpl; lia | ].
  destruct (Z.ltb_spec (month d) 12); simpl.
  - rewrite days_before_month_succ by lia. lia.
  - assert (Hm12 : month d = 12) by lia.
    rewrite days_before_year_succ. rewrite Hm12 in *.
    revert Hday H. unfold days_in_month, days_before_month, days_in_year,
      month_table.
    eval_index. destruct (is_leap (year d)); lia.
Qed.

Lemma days_inclusive_nonneg (s e : option date) :
  (forall d, s = Some d -> valid_date d = true) ->
  (forall d, e = Some d -> valid_date d = true) ->
  0 <= days_inclusive s e.
Proof.
  intros Hs He. destruct s as [s|], e as [e|]; simpl; try lia.
  destruct (date_lt e s) eqn:E; [ lia | ].
  pose proof (toordinal_le s e (Hs _ eq_refl) (He _ eq_refl) E).
  unfold sub_days. lia.
Qed.

(** ** [add_months] *)

Lemma mk_date_inr (y m d : Z) (dt : date) :
  mk_date y m d = inr dt -> dt = Date y m d /\ valid_date dt = true.
Proof.
  unfold mk_date. destruct (_ && _); [ | discriminate ].
  destruct (valid_date (Date y m d)) eqn:E; intros H.
  - inversion H. subst. auto.
  - discriminate.
Qed.

(** The numbers of the calendar fit a C [int]. *)
Lemma fits_int_small (n : Z) : 1 <= n <= 9999 -> fits_int n = true.
Proof.
  intros H. unfold fits_int, INT_MIN, INT_MAX.
  apply andb_true_iff. split; apply Z.leb_le; lia.
Qed.

Lemma mk_date_valid (y m d : Z) :
  valid_date (Date y m d) = true -> mk_date y m d = inr (Date y m d).
Proof.
  intros Hv. unfold mk_date. rewrite Hv.
  apply valid_date_spec in Hv. cbn [year month day] in Hv.
  destruct Hv as (Hy & Hm & Hd).
  pose proof (days_in_month_bounds y m Hm).
  rewrite !fits_int_small by lia. reflexivity.
Qed.

Lemma add_months_inr (d : date) (months : Z) (d' : date) :
  add_months d months = inr d' ->
  year d' = year d + (month d - 1 + months) / 12 /\
  month d' = (month d - 1 + months) mod 12 + 1 /\
  day d' = Z.min (day d) (days_in_month (year d') (month d')) /\
  valid_date d' = true.
Proof.
  unfold add_months. intros H. apply mk_date_inr in H. destruct H as [-> Hv].
  simpl. auto.
Qed.

(** For a date of the calendar the clamped day is always a day of the
    target month: [add_months] raises exactly when the target year leaves
    [MINYEAR .. MAXYEAR]. *)
Lemma add_months_defined (d : date) (months : Z) :
  valid_date d = true ->
  let y := year d + (month d - 1 + months) / 12 in
  let m := (month d - 1 + months) mod 12 + 1 in
  add_months d months =
    if (MINYEAR <=? y) && (y <=? MAXYEAR)
    then inr (Date y m (Z.min (day d) (days_in_month y m)))
    else inl (if fits_int y then ValueError else OverflowError).
Proof.
  intros Hd y m. apply valid_date_spec in Hd. destruct Hd as (Hy & Hm & Hday).
  unfold add_months, mk_date. fold y. fold m.
  change (nth (Z.to_nat (m - 1)) (month_table y) 0) with (days_in_month y m).
  assert (Hm' : 1 <= m <= 12)
    by (unfold m; pose proof (Z.mod_pos_bound (month d - 1 + months) 12); lia).
  pose proof (days_in_month_bounds y m Hm').
  rewrite (fits_int_small m), (fits_int_small (Z.min _ _)) by lia.
  rewrite !andb_true_r.
  destruct (fits_int y) eqn:Hfit.
  2:{ replace ((MINYEAR <=? y) && (y <=? MAXYEAR)) with false;
        [ reflexivity | ].
      symmetry. apply andb_false_iff.
      unfold fits_int, INT_MIN, INT_MAX, MINYEAR, MAXYEAR in *.
      apply andb_false_iff in Hfit.
      destruct Hfit as [Hfit | Hfit]; apply Z.leb_gt in Hfit;
        [ left | right ]; apply Z.leb_gt; lia. }
  unfold valid_date; simpl.
  destruct (MINYEAR <=? y), (y <=? MAXYEAR); simpl; try reflexivity.
  replace (1 <=? m) with true by (symmetry; apply Z.leb_le; lia).
  replace (m <=? 12) with true by (symmetry; apply Z.leb_le; lia).
  replace (1 <=? Z.min (day d) (days_in_month y m)) with true
    by (symmetry; apply Z.leb_le; lia).
  replace (Z.min (day d) (days_in_month y m) <=? days_in_month y m) with true
    by (symmetry; apply Z.leb_le; lia).
  reflexivity.
Qed.

(** Adding a positive number of months leads to a later date. *)
Lemma add_months_later (d : date) (months : Z) (d' : date) :
  valid_date d = true -> 0 < months ->
  add_months d months = inr d' -> date_lt d d' = true.
Proof.
  intros Hd Hpos H. apply add_months_inr in H.
  destruct H as (Hy & Hm & _ & _).
  apply valid_date_spec in Hd. destruct Hd as (_ & Hmd & _).
  apply date_lt_spec. rewrite Hy, Hm.
  Z.to_euclidean_division_equations; lia.
Qed.

Lemma add_months_zero (d : date) :
  valid_date d = true -> add_months d 0 = inr d.
Proof.
  intros Hd. rewrite add_months_defined by assumption.
  apply valid_date_spec in Hd. destruct Hd as (Hy & Hm & Hday).
  replace (month d - 1 + 0) with (month d - 1) by lia.
  rewrite Z.div_small, Z.mod_small by lia.
  replace (year d + 0) with (year d) by lia.
  replace (month d - 1 + 1) with (month d) by lia.
  unfold MINYEAR, MAXYEAR.
  replace (1 <=? year d) with true by (symmetry; apply Z.leb_le; lia).
  replace (year d <=? 9999) with true by (symmetry; apply Z.leb_le; lia).
  simpl. rewrite Z.min_l by lia. destruct d; reflexivity.
Qed.

End Calendar.


(* ===================================================================== *)
(** * Facts about the sign of a float *)
(* ===================================================================== *)

Section Sign.

Lemma binary_round_aux_signed (s : bool) (m e : Z) (l : location) :
  signed s (binary_round_aux prec emax s m e l).
Proof.
  unfold binary_round_aux.
  destruct (shr_fexp prec emax m e l) as [mrs e'].
  destruct (shr_fexp prec emax _ e' loc_Exact) as [mrs' e''].
  destruct (shr_m mrs'); [ | destruct (e'' <=? emax - prec) | ]; simpl; auto.
Qed.

Lemma binary_round_signed (s : bool) (m : positive) (e : Z) :
  signed s (binary_round prec emax s m e).
Proof.
  unfold binary_round.
  destruct (shl_align m e _) as [mz ez]. apply binary_round_aux_signed.
Qed.

Lemma not_negative_iff (x : float) :
  not_negative x <->
  match x with
  | S754_finite s _ _ | S754_infinity s => s = false
  | _ => True
  end.
Proof.
  unfold not_negative, flt, SFltb, zero.
  destruct x as [s | s | | s m e]; simpl; try destruct s; simpl;
    split; intros; auto; discriminate.
Qed.

Lemma nonneg_iff (x : float) :
  nonneg x <->
  match x with
  | S754_finite s _ _ | S754_infinity s => s = false
  | S754_zero _ => True
  | S754_nan => False
  end.
Proof.
  unfold nonneg, fle, SFleb, zero.
  destruct x as [s | s | | s m e]; simpl; try destruct s; simpl;
    split; intros; auto; try discriminate; contradiction.
Qed.

Lemma nonneg_not_negative (x : float) : nonneg x -> not_negative x.
Proof.
  rewrite nonneg_iff, not_negative_iff. destruct x; tauto.
Qed.

Lemma signed_not_negative (x : float) : signed false x -> not_negative x.
Proof. rewrite not_negative_iff. destruct x; simpl; auto. Qed.

Lemma of_int_not_negative (n : Z) : 0 <= n -> not_negative (of_int n).
Proof.
  intros H. unfold of_int, binary_normalize.
  destruct n as [ | p | p ]; [ reflexivity | | lia ].
  apply signed_not_negative, binary_round_signed.
Qed.

Lemma fmul_not_negative (x y : float) :
  not_negative x -> not_negative y -> not_negative (fmul x y).
Proof.
  rewrite !not_negative_iff.
  destruct x as [sx | sx | | sx mx ex], y as [sy | sy | | sy my ey];
    simpl; intros; subst; auto.
  all: try (destruct sx; reflexivity). all: try (destruct sy; reflexivity).
  apply not_negative_iff, signed_not_negative, binary_round_aux_signed.
Qed.

Lemma fadd_not_negative (x y : float) :
  not_negative x -> not_negative y -> not_negative (fadd x y).
Proof.
  rewrite !not_negative_iff.
  destruct x as [sx | sx | | sx mx ex], y as [sy | sy | | sy my ey];
    simpl; intros; subst; auto.
  all: try (destruct sx, sy; simpl; auto; fail).
  apply not_negative_iff. unfold binary_normalize. simpl.
  apply signed_not_negative, binary_round_signed.
Qed.

Lemma of_int_signed (n : Z) : 0 <= n -> signed false (of_int n).
Proof.
  intros H. unfold of_int, binary_normalize.
  destruct n as [ | p | p ]; [ reflexivity | | lia ].
  apply binary_round_signed.
Qed.

(** Division by a divisor whose sign bit is clear ([+0.0] included) keeps
    a dividend that is not negative so. *)
Lemma fdiv_not_negative (x y : float) :
  not_negative x -> signed false y -> not_negative (fdiv x y).
Proof.
  rewrite !not_negative_iff.
  destruct x as [sx | sx | | sx mx ex], y as [sy | sy | | sy my ey];
    simpl; intros; subst; auto.
  destruct (SFdiv_core_binary prec emax (Z.pos mx) ex (Z.pos my) ey)
    as [[mz ez] lz].
  apply not_negative_iff, signed_not_negative, binary_round_aux_signed.
Qed.

Lemma int_of_float_nonneg (x : float) (n : Z) :
  nonneg x -> int_of_float x = inr n -> 0 <= n.
Proof.
  rewrite nonneg_iff.
  destruct x as [s | s | | s m e]; simpl; intros Hx H;
    try discriminate; inversion H; subst; [ lia | ].
  simpl. apply Z.shiftl_nonneg. lia.
Qed.

End Sign.

(* ===================================================================== *)
(** * Facts about rounding *)
(* ===================================================================== *)

Section Rounding.

Lemma shr_1_nonneg (mrs : shr_record) :
  0 <= shr_m mrs -> 0 <= shr_m (shr_1 mrs).
Proof.
  destruct mrs as [m r s]. simpl.
  destruct m as [ | [p|p|] | p ]; simpl; lia.
Qed.

Lemma iter_pos_invariant {A : Type} (P : A -> Prop) (f : A -> A) :
  (forall a, P a -> P (f a)) ->
  forall (n : positive) (a : A), P a -> P (iter_pos f n a).
Proof.
  intros Hf. induction n as [n IH | n IH | ]; intros a Ha; simpl; auto.
Qed.

Lemma shr_nonneg (mrs : shr_record) (e n : Z) :
  0 <= shr_m mrs -> 0 <= shr_m (fst (shr mrs e n)).
Proof.
  intros H. unfold shr. destruct n; simpl; try assumption.
  apply (iter_pos_invariant (fun x => 0 <= shr_m x)); [ | assumption ].
  apply shr_1_nonneg.
Qed.

Lemma shr_fexp_nonneg (m e : Z) (l : location) :
  0 <= m -> 0 <= shr_m (fst (shr_fexp prec emax m e l)).
Proof.
  intros H. unfold shr_fexp. apply shr_nonneg.
  destruct l as [ | [ | | ] ]; simpl; assumption.
Qed.

Lemma round_nearest_even_nonneg (m : Z) (l : location) :
  0 <= m -> 0 <= round_nearest_even m l.
Proof.
  intros H. unfold round_nearest_even.
  destruct l as [ | [ | | ] ]; try destruct (Z.even m); lia.
Qed.

(** Rounding a mantissa that is not negative gives a zero, a number or an
    infinity of the sign asked for, never NaN. *)
Lemma binary_round_aux_cases (s : bool) (m e : Z) (l : location) :
  0 <= m ->
  match binary_round_aux prec emax s m e l with
  | S754_nan => False
  | S754_zero s' | S754_infinity s' | S754_finite s' _ _ => s' = s
  end.
Proof.
  intros H. unfold binary_round_aux.
  pose proof (shr_fexp_nonneg m e l H) as H1.
  destruct (shr_fexp prec emax m e l) as [mrs e']. simpl in H1.
  pose proof (shr_fexp_nonneg
                (round_nearest_even (shr_m mrs) (loc_of_shr_record mrs))
                e' loc_Exact (round_nearest_even_nonneg _ _ H1)) as H2.
  destruct (shr_fexp prec emax _ e' loc_Exact) as [mrs' e'']. simpl in H2.
  destruct (shr_m mrs'); [ | destruct (e'' <=? emax - prec) | ];
    simpl; auto; lia.
Qed.

Lemma nonpos_iff (x : float) :
  nonpos x <->
  match x with
  | S754_finite s _ _ | S754_infinity s => s = true
  | S754_zero _ => True
  | S754_nan => False
  end.
Proof.
  unfold nonpos, fle, SFleb, zero.
  destruct x as [s | s | | s m e]; simpl; try destruct s; simpl;
    split; intros; auto; try discriminate; contradiction.
Qed.

(** A float that is [>= 0] times a negative number is [<= 0]. *)
Lemma fmul_nonpos (x : float) (m : positive) (e : Z) :
  nonneg x -> nonpos (fmul x (S754_finite true m e)).
Proof.
  rewrite nonneg_iff, nonpos_iff.
  destruct x as [sx | sx | | sx mx ex];
    simpl; intros; subst; try contradiction; auto.
  rename m into my. rename e into ey.
  pose proof (binary_round_aux_cases true (Z.pos (mx * my)) (ex + ey)
                loc_Exact ltac:(lia)) as H.
  simpl. destruct (binary_round_aux _ _ _ _ _ _); auto.
Qed.

(** [2^(d-1) <= p < 2^d] for the number [d] of binary digits of [p]. *)
Lemma digits2_pos_bounds (p : positive) :
  2 ^ (Zpos (digits2_pos p) - 1) <= Zpos p < 2 ^ Zpos (digits2_pos p).
Proof.
  induction p as [p IH | p IH | ]; simpl digits2_pos.
  - rewrite Pos2Z.inj_succ.
    replace (Z.succ (Zpos (digits2_pos p)) - 1)
      with (Zpos (digits2_pos p) - 1 + 1) by lia.
    rewrite Z.pow_succ_r by lia.
    rewrite Z.pow_add_r by lia. lia.
  - rewrite Pos2Z.inj_succ.
    replace (Z.succ (Zpos (digits2_pos p)) - 1)
      with (Zpos (digits2_pos p) - 1 + 1) by lia.
    rewrite Z.pow_succ_r by lia.
    rewrite Z.pow_add_r by lia. lia.
  - simpl. lia.
Qed.

Lemma digits2_pos_ge (p : positive) (d : Z) :
  0 <= d -> 2 ^ d <= Zpos p -> d + 1 <= Zpos (digits2_pos p).
Proof.
  intros Hd H. pose proof (digits2_pos_bounds p) as [_ Hu].
  destruct (Z.le_gt_cases (d + 1) (Zpos (digits2_pos p))) as [ | Hlt];
    [ assumption | exfalso ].
  assert (2 ^ Zpos (digits2_pos p) <= 2 ^ d)
    by (apply Z.pow_le_mono_r; lia).
  lia.
Qed.

Lemma digits2_pos_le (p : positive) (d : Z) :
  0 <= d -> Zpos p < 2 ^ d -> Zpos (digits2_pos p) <= d.
Proof.
  intros Hd H. pose proof (digits2_pos_bounds p) as [Hl _].
  destruct (Z.le_gt_cases (Zpos (digits2_pos p)) d) as [ | Hlt];
    [ assumption | exfalso ].
  assert (2 ^ d <= 2 ^ (Zpos (digits2_pos p) - 1))
    by (apply Z.pow_le_mono_r; lia).
  lia.
Qed.

Lemma shr_1_digits (r : shr_record) :
  0 < shr_m r ->
  0 <= shr_m (shr_1 r) /\
  Zdigits2 (shr_m (shr_1 r)) = Zdigits2 (shr_m r) - 1.
Proof.
  destruct r as [m b s]. cbn [shr_m].
  destruct m as [ | [p|p|] | p ]; intros H; try lia;
    cbn [shr_1 shr_m Zdigits2 digits2_pos];
    rewrite ?Pos2Z.inj_succ; split; lia.
Qed.

Lemma iter_shr_1_digits (k : positive) :
  forall r : shr_record,
    0 < shr_m r -> Zpos k < Zdigits2 (shr_m r) ->
    0 < shr_m (iter_pos shr_1 k r) /\
    Zdigits2 (shr_m (iter_pos shr_1 k r)) = Zdigits2 (shr_m r) - Zpos k.
Proof.
  assert (Hpos : forall m, 0 <= m -> 0 < Zdigits2 m -> 0 < m)
    by (intros [ | p | p ]; simpl; lia).
  assert (Hstep : forall r, 0 < shr_m r -> 1 < Zdigits2 (shr_m r) ->
            0 < shr_m (shr_1 r) /\
            Zdigits2 (shr_m (shr_1 r)) = Zdigits2 (shr_m r) - 1).
  { intros r H0 H1. destruct (shr_1_digits r H0) as [Ha Hb].
    split; [ apply Hpos; lia | assumption ]. }
  induction k as [k IH | k IH | ]; intros r H0 Hk; simpl.
  - destruct (Hstep r H0 ltac:(lia)) as [A1 A2].
    destruct (IH (shr_1 r) A1 ltac:(lia)) as [B1 B2].
    destruct (IH _ B1 ltac:(lia)) as [C1 C2].
    split; [ assumption | lia ].
  - destruct (IH r H0 ltac:(lia)) as [B1 B2].
    destruct (IH _ B1 ltac:(lia)) as [C1 C2].
    split; [ assumption | lia ].
  - apply Hstep; assumption.
Qed.

(** In the normal range [shr_fexp] leaves a mantissa of exactly 53 digits. *)
Lemma shr_fexp_normal (m e : Z) (l : location) :
  0 < m -> prec <= Zdigits2 m -> emin prec emax <= e ->
  let '(r, e') := shr_fexp prec emax m e l in
  0 < shr_m r /\ Zdigits2 (shr_m r) = prec /\ e' = e + (Zdigits2 m - prec).
Proof.
  intros Hm Hd He. unfold shr_fexp, fexp.
  replace (Z.max (Zdigits2 m + e - prec) (emin prec emax) - e)
    with (Zdigits2 m - prec) by lia.
  assert (Hrec : shr_m (shr_record_of_loc m l) = m)
    by (destruct l as [ | [ | | ] ]; reflexivity).
  unfold shr. destruct (Zdigits2 m - prec) as [ | k | k ] eqn:Ek; try lia.
  - rewrite Hrec. repeat split; lia.
  - destruct (iter_shr_1_digits k (shr_record_of_loc m l)) as [A B];
      rewrite ?Hrec; unfold prec in *; try lia.
    rewrite Hrec in B. repeat split; lia.
Qed.

Lemma digits2_pos_succ (p : positive) :
  digits2_pos (Pos.succ p) = digits2_pos p \/
  digits2_pos (Pos.succ p) = Pos.succ (digits2_pos p).
Proof.
  induction p as [p IH | p IH | ]; simpl; auto.
  destruct IH as [-> | ->]; auto.
Qed.

Lemma round_nearest_even_digits (m : Z) (l : location) :
  0 < m ->
  0 < round_nearest_even m l /\
  (Zdigits2 (round_nearest_even m l) = Zdigits2 m \/
   Zdigits2 (round_nearest_even m l) = Zdigits2 m + 1).
Proof.
  intros Hm. destruct m as [ | p | p ]; try lia.
  assert (Hs : 0 < Zpos p + 1 /\
               (Zdigits2 (Zpos p + 1) = Zdigits2 (Zpos p) \/
                Zdigits2 (Zpos p + 1) = Zdigits2 (Zpos p) + 1)).
  { split; [ lia | ].
    replace (Zpos p + 1) with (Zpos (Pos.succ p)) by lia. simpl.
    destruct (digits2_pos_succ p) as [-> | ->]; [ left | right ]; lia. }
  unfold round_nearest_even.
  destruct l as [ | [ | | ] ]; try destruct (Z.even (Zpos p)); auto;
    split; auto; lia.
Qed.

(** Rounding a positive mantissa of at least 53 digits in the normal
    range gives a number, neither zero nor an infinity, whose mantissa
    has 53 digits. *)
Lemma binary_round_aux_finite (s : bool) (m e : Z) (l : location) :
  0 < m -> prec <= Zdigits2 m -> emin prec emax <= e ->
  e + (Zdigits2 m - prec) + 1 <= emax - prec ->
  exists m' e',
    binary_round_aux prec emax s m e l = S754_finite s m' e' /\
    Zpos (digits2_pos m') = prec /\
    e + (Zdigits2 m - prec) <= e' <= e + (Zdigits2 m - prec) + 1.
Proof.
  intros Hm Hd He Hmax. unfold binary_round_aux.
  pose proof (shr_fexp_normal m e l Hm Hd He) as H1.
  destruct (shr_fexp prec emax m e l) as [r1 e1].
  destruct H1 as (A1 & A2 & A3).
  destruct (round_nearest_even_digits (shr_m r1) (loc_of_shr_record r1) A1)
    as [B1 B2].
  pose proof (shr_fexp_normal _ e1 loc_Exact B1 ltac:(lia) ltac:(lia)) as H2.
  destruct (shr_fexp prec emax _ e1 loc_Exact) as [r2 e2].
  destruct H2 as (C1 & C2 & C3).
  destruct (shr_m r2) as [ | m2 | m2 ]; try lia.
  replace (e2 <=? emax - prec) with true by (symmetry; apply Z.leb_le; lia).
  exists m2, e2. simpl in C2. repeat split; lia.
Qed.

Lemma digits2_pos_iter_xO (k p : positive) :
  Zpos (digits2_pos (Pos.iter xO p k)) = Zpos (digits2_pos p) + Zpos k.
Proof.
  induction k as [ | k IH ] using Pos.peano_ind.
  - simpl. lia.
  - rewrite Pos.iter_succ. simpl digits2_pos. lia.
Qed.

(** [float(n)] for a negative int above [-2^53] is a negative number. *)
Lemma of_int_negative (n : Z) :
  - 2 ^ 53 < n < 0 ->
  exists m e, of_int n = S754_finite true m e /\
              Zpos (digits2_pos m) = prec /\ -52 <= e <= 1.
Proof.
  intros Hn. destruct n as [ | p | p ]; try lia.
  unfold of_int, binary_normalize, binary_round.
  assert (Hd : Zpos (digits2_pos p) <= 53)
    by (apply digits2_pos_le; lia).
  clear Hn.
  unfold shl_align, fexp.
  replace (Z.max (Zpos (digits2_pos p) + 0 - prec) (emin prec emax) - 0)
    with (Zpos (digits2_pos p) - 53) by (unfold prec, emin, emax; lia).
  replace (Z.max (Zpos (digits2_pos p) + 0 - prec) (emin prec emax))
    with (Zpos (digits2_pos p) - 53) by (unfold prec, emin, emax; lia).
  destruct (Zpos (digits2_pos p) - 53) as [ | k | k ] eqn:Ek; try lia.
  - destruct (binary_round_aux_finite true (Zpos p) 0 loc_Exact)
      as (m' & e' & E & D & B);
      try (cbn [Zdigits2]; unfold prec, emin, emax; lia).
    exists m', e'. split; [ exact E | ]. split; [ exact D | ].
    cbn [Zdigits2] in B. unfold prec in B. lia.
  - pose proof (digits2_pos_iter_xO k p) as Hk.
    destruct (binary_round_aux_finite true (Zpos (Pos.iter xO p k))
                (Zneg k) loc_Exact)
      as (m' & e' & E & D & B);
      try (cbn [Zdigits2]; unfold prec, emin, emax; lia).
    exists m', e'. split; [ exact E | ]. split; [ exact D | ].
    cbn [Zdigits2] in B. unfold prec in B. lia.
Qed.

(** A negative number as above divided by [12.0] is a negative number. *)
Lemma fdiv_12_negative (m : positive) (e : Z) :
  Zpos (digits2_pos m) = prec -> -52 <= e <= 1 ->
  exists m' e', fdiv (S754_finite true m e) f12 = S754_finite true m' e'.
Proof.
  intros Hd He. unfold fdiv, f12, SFdiv. cbn [xorb].
  unfold SFdiv_core_binary. cbn [Zdigits2]. rewrite Hd.
  change (Zpos (digits2_pos 6755399441055744)) with 53.
  unfold fexp.
  replace (Z.min (Z.max (prec + e - (53 + -49) - prec) (emin prec emax))
                 (e - -49)) with (e - 4)
    by (unfold prec, emin, emax; lia).
  replace (e - -49 - (e - 4)) with 53 by lia.
  cbv iota.
  pose proof (digits2_pos_bounds m) as Hb. rewrite Hd in Hb.
  unfold prec in Hb.
  rewrite Z.shiftl_mul_pow2 by lia.
  pose proof (Z_div_mod (Zpos m * 2 ^ 53) 6755399441055744 eq_refl) as Hdm.
  destruct (Z.div_eucl (Zpos m * 2 ^ 53) 6755399441055744) as [q r].
  destruct Hdm as [Hq Hr].
  assert (Hq0 : 2 ^ 52 <= q < 2 ^ 54).
  { change (2 ^ (53 - 1)) with 4503599627370496 in Hb.
    change (2 ^ 53) with 9007199254740992 in *.
    change (2 ^ 52) with 4503599627370496.
    change (2 ^ 54) with 18014398509481984. lia. }
  destruct q as [ | q | q ]; try lia.
  assert (Hdq : 53 <= Zpos (digits2_pos q) <= 54).
  { split.
    - apply (digits2_pos_ge q 52); lia.
    - apply digits2_pos_le; lia. }
  destruct (binary_round_aux_finite true (Zpos q) (e - 4)
              (new_location 6755399441055744 r))
    as (m' & e' & E & _);
    try (cbn [Zdigits2]; unfold prec, emin, emax; lia).
  exists m', e'. exact E.
Qed.

End Rounding.

(* ===================================================================== *)
(** * Facts about the helpers *)
(* ===================================================================== *)

Section Helpers.

Lemma inr_inj {A B : Type} (x y : B) : @inr A B x = inr y -> x = y.
Proof. intros H. congruence. Qed.

Lemma days_inclusive_pos (s e : date) :
  valid_date s = true -> valid_date e = true -> date_lt e s = false ->
  1 <= days_inclusive (Some s) (Some e).
Proof.
  intros Hs He H. simpl. rewrite H.
  pose proof (toordinal_le s e Hs He H). unfold sub_days. lia.
Qed.

Lemma date_lt_false_iff (a b : date) :
  date_lt a b = false <->
  ~ (year a < year b \/
     (year a = year b /\
      (month a < month b \/ (month a = month b /\ day a < day b)))).
Proof.
  rewrite <- date_lt_spec. destruct (date_lt a b); split; congruence.
Qed.

(** No date is both at most [join_date] and at least a later
    [proj_start]. *)
Lemma window_after_join (join_date proj_start proj_end d : date) :
  date_lt join_date proj_start = true ->
  date_le d join_date && (date_le proj_start d && date_le d proj_end) = false.
Proof.
  intros Hgap. unfold date_le.
  destruct (date_lt join_date d) eqn:E1; [ reflexivity | ].
  destruct (date_lt d proj_start) eqn:E2; [ reflexivity | ].
  exfalso. apply date_lt_spec in Hgap.
  apply date_lt_false_iff in E1. apply date_lt_false_iff in E2. lia.
Qed.

Lemma date_max_valid (a b : date) :
  valid_date a = true -> valid_date b = true ->
  valid_date (date_max a b) = true.
Proof. unfold date_max. destruct (date_lt a b); auto. Qed.

Lemma parse_date_read (y m d : Z) (rest : list Z) (default : date) :
  valid_date (Date y m d) = true ->
  parse_date (Read (y :: m :: d :: rest)) default = Date y m d.
Proof.
  intros Hv. unfold parse_date. rewrite (mk_date_valid y m d Hv).
  reflexivity.
Qed.

Lemma parse_date_valid (s : field (list Z)) (default : date) :
  valid_date default = true -> valid_date (parse_date s default) = true.
Proof.
  intros Hd. unfold parse_date.
  destruct s as [ | | [ | y [ | m [ | d rest ] ] ] ]; try assumption.
  destruct (mk_date y m d) as [e|dt] eqn:E; [ assumption | ].
  apply mk_date_inr in E. tauto.
Qed.

Lemma riv_component_not_negative (months : Z) (ps pe : date) (lbl : label)
    (start : option date) (annual : float) :
  not_negative annual ->
  not_negative (snd (riv_component months ps pe lbl start annual)).
Proof.
  intros Ha. unfold riv_component.
  destruct start as [s|]; [ | reflexivity ].
  destruct (months <=? 0); [ reflexivity | ].
  destruct (date_lt pe s); [ reflexivity | ].
  destruct (Z.leb_spec (days_inclusive (Some (date_max s ps)) (Some pe)) 0);
    [ reflexivity | ].
  cbn [snd]. apply fmul_not_negative.
  - apply fdiv_not_negative; [ assumption | reflexivity ].
  - apply of_int_not_negative. lia.
Qed.

(** With a months count of zero or less no stream earns anything. *)
Lemma riv_component_no_months (months : Z) (ps pe : date) (lbl : label)
    (start : option date) (annual : float) :
  months <= 0 ->
  riv_component months ps pe lbl start annual = (lbl, zero).
Proof.
  intros H. unfold riv_component. destruct start; [ | reflexivity ].
  replace (months <=? 0) with true by (symmetry; apply Z.leb_le; lia).
  reflexivity.
Qed.

End Helpers.

Create HintDb sign.
#[local] Hint Resolve fadd_not_negative fmul_not_negative fdiv_not_negative
  nonneg_not_negative of_int_not_negative of_int_signed
  riv_component_not_negative days_inclusive_nonneg parse_date_valid
  date_max_valid : sign.

(** Reading a successful call: names the months count and the end of the
    window, and replaces the result by the record the call builds. *)
Ltac run_calculate H months proj_end Hmonths Hend :=
  unfold calculate, bind, ret in H;
  destruct (int_of_float _) as [?|months] eqn:Hmonths; [ discriminate | ];
  destruct (add_months _ months) as [?|proj_end] eqn:Hend; [ discriminate | ];
  apply inr_inj in H; subst.

(** Evaluating a call on a closed input: [r] becomes the record. *)
Ltac evaluate E r :=
  let E' := fresh in
  pose proof E as E'; vm_compute in E'; apply inr_inj in E'; subst r.

(* ===================================================================== *)
(** * The date utilities *)
(* ===================================================================== *)

(** C5.  [days_inclusive(start, end)] is 0 when a date is missing or when
    [end < start]; otherwise it is [(end - start).days + 1], at least 1,
    both ends counted: 1 from a day to itself and 2 from a day to the next
    day of the calendar. *)
Theorem days_inclusive_spec (s e : date)
    (Hs : valid_date s = true) (He : valid_date e = true) :
  days_inclusive None (Some e) = 0 /\
  days_inclusive (Some s) None = 0 /\
  days_inclusive None None = 0 /\
  (date_lt e s = true -> days_inclusive (Some s) (Some e) = 0) /\
  (date_lt e s = false ->
   days_inclusive (Some s) (Some e) = sub_days e s + 1 /\
   1 <= days_inclusive (Some s) (Some e)) /\
  days_inclusive (Some s) (Some s) = 1 /\
  days_inclusive (Some s) (Some (next_day s)) = 2.
Proof.
  repeat split; try reflexivity.
  - intros H. simpl. rewrite H. reflexivity.
  - simpl. rewrite H. reflexivity.
  - apply days_inclusive_pos; assumption.
  - simpl. rewrite date_lt_irrefl. unfold sub_days. lia.
  - simpl. unfold sub_days. rewrite toordinal_next_day by assumption.
    replace (date_lt (next_day s) s) with false; [ lia | ].
    symmetry. destruct (date_lt (next_day s) s) eqn:E; [ | reflexivity ].
    exfalso. apply date_lt_spec in E. unfold next_day in E.
    apply valid_date_spec in Hs.
    destruct (day s <? _), (month s <? 12); simpl in E; lia.
Qed.

Lemma days_inclusive_spec_witness :
  days_inclusive (Some (Date 2024 2 28)) (Some (Date 2024 3 1)) = 3 /\
  days_inclusive (Some (Date 2024 3 1)) (Some (Date 2024 2 28)) = 0.
Proof.
  pose proof (days_inclusive_spec (Date 2024 2 28) (Date 2024 3 1)
                eq_refl eq_refl) as (_ & _ & _ & _ & H & _).
  pose proof (days_inclusive_spec (Date 2024 3 1) (Date 2024 2 28)
                eq_refl eq_refl) as (_ & _ & _ & H' & _).
  split.
  - destruct (H eq_refl) as [-> _]. reflexivity.
  - apply H'. reflexivity.
Defined.

(** C6.  [add_months(d, months)] takes the year and the month from the
    floor division and the remainder of [month - 1 + months] by 12 and
    cuts the day down to the last day of that month, leap years counted:
    the result is a date of the target month.  31 January 2024 plus one
    month is 29 February 2024, 31 January 2023 plus one month is
    28 February 2023, and twelve months later is the same day of the next
    year when that day exists. *)
Theorem add_months_spec (d : date) (months : Z)
    (Hd : valid_date d = true) :
  let y := year d + (month d - 1 + months) / 12 in
  let m := (month d - 1 + months) mod 12 + 1 in
  (forall d', add_months d months = inr d' ->
     year d' = y /\ month d' = m /\
     day d' = Z.min (day d) (days_in_month y m) /\
     1 <= day d' <= days_in_month y m /\
     valid_date d' = true) /\
  (1 <= y <= 9999 ->
   add_months d months = inr (Date y m (Z.min (day d) (days_in_month y m)))) /\
  add_months (Date 2024 1 31) 1 = inr (Date 2024 2 29) /\
  add_months (Date 2023 1 31) 1 = inr (Date 2023 2 28) /\
  (valid_date (Date (year d + 1) (month d) (day d)) = true ->
   add_months d 12 = inr (Date (year d + 1) (month d) (day d))).
Proof.
  intros y m. repeat split; try reflexivity.
  - apply add_months_inr in H. tauto.
  - apply add_months_inr in H. tauto.
  - apply add_months_inr in H. destruct H as (-> & -> & -> & _). reflexivity.
  - apply add_months_inr in H. destruct H as (Hy & Hm & Hday & Hv).
    apply valid_date_spec in Hv. lia.
  - apply add_months_inr in H. destruct H as (Hy & Hm & Hday & Hv).
    apply valid_date_spec in Hv. fold y in Hy. fold m in Hm.
    rewrite <- Hy, <- Hm. lia.
  - apply add_months_inr in H. tauto.
  - intros Hy. rewrite add_months_defined by assumption. fold y. fold m.
    unfold MINYEAR, MAXYEAR.
    replace (1 <=? y) with true by (symmetry; apply Z.leb_le; lia).
    replace (y <=? 9999) with true by (symmetry; apply Z.leb_le; lia).
    reflexivity.
  - intros Hv. rewrite add_months_defined by assumption.
    apply valid_date_spec in Hd. apply valid_date_spec in Hv.
    simpl in Hv. destruct Hd as (Hy & Hm & Hday), Hv as (Hy' & _ & Hday').
    replace ((month d - 1 + 12) / 12) with 1
      by (Z.to_euclidean_division_equations; lia).
    replace ((month d - 1 + 12) mod 12 + 1) with (month d)
      by (Z.to_euclidean_division_equations; lia).
    unfold MINYEAR, MAXYEAR.
    replace (1 <=? year d + 1) with true by (symmetry; apply Z.leb_le; lia).
    replace (year d + 1 <=? 9999) with true by (symmetry; apply Z.leb_le; lia).
    simpl. rewrite Z.min_l by lia. reflexivity.
Qed.

Lemma add_months_spec_witness :
  add_months (Date 2023 3 31) 12 = inr (Date 2024 3 31) /\
  add_months (Date 2023 3 31) 11 = inr (Date 2024 2 29).
Proof.
  pose proof (add_months_spec (Date 2023 3 31) 12 eq_refl)
    as (_ & _ & _ & _ & H).
  pose proof (add_months_spec (Date 2023 3 31) 11 eq_refl) as (_ & H' & _).
  split.
  - apply H. reflexivity.
  - apply H'. vm_compute. split; discriminate.
Defined.

(** The window of the page's defaults: 24 months from 1 January 2026. *)
Example add_months_two_years :
  add_months (Date 2026 1 1) 24 = inr (Date 2028 1 1).
Proof. reflexivity. Qed.

Example add_months_back_over_new_year :
  add_months (Date 2026 1 31) (-2) = inr (Date 2025 11 30).
Proof. reflexivity. Qed.

Example days_inclusive_leap_year :
  days_inclusive (Some (Date 2024 1 1)) (Some (Date 2024 12 31)) = 366.
Proof. reflexivity. Qed.

(* ===================================================================== *)
(** * The revenue streams *)
(* ===================================================================== *)

(** C7.  A revenue stream earns 0 when it has no start, when the months
    count is 0 or less, or when it starts after the end of the window;
    otherwise it earns [annual_revenue / 365.25] times the inclusive days
    from the later of its start and the start of the window to the end of
    the window, which is the whole window when it starts no later than the
    window.  The end of the window is [add_months(proj_start,
    projection_months)], as in [calculate]. *)
Theorem riv_component_revenue (projection_months : Z)
    (proj_start proj_end : date) (lbl : label) (start : date)
    (annual_revenue : float)
    (Hps : valid_date proj_start = true)
    (Hs : valid_date start = true)
    (Hend : add_months proj_start projection_months = inr proj_end) :
  let revenue s :=
    snd (riv_component projection_months proj_start proj_end lbl s
           annual_revenue) in
  let daily_revenue := fdiv annual_revenue f365_25 in
  revenue None = zero /\
  (projection_months <= 0 -> revenue (Some start) = zero) /\
  (date_lt proj_end start = true -> revenue (Some start) = zero) /\
  (0 < projection_months -> date_lt proj_end start = false ->
   revenue (Some start) =
     fmul daily_revenue
       (of_int (days_inclusive (Some (date_max start proj_start))
                               (Some proj_end)))) /\
  (0 < projection_months -> date_le start proj_start = true ->
   revenue (Some start) =
     fmul daily_revenue
       (of_int (days_inclusive (Some proj_start) (Some proj_end)))).
Proof.
  intros revenue daily_revenue.
  assert (Hpe : valid_date proj_end = true)
    by (apply add_months_inr in Hend; tauto).
  assert (Hmain : 0 < projection_months -> date_lt proj_end start = false ->
     revenue (Some start) =
       fmul daily_revenue
         (of_int (days_inclusive (Some (date_max start proj_start))
                                 (Some proj_end)))).
  { intros Hpos Hns. unfold revenue, riv_component.
    replace (projection_months <=? 0) with false
      by (symmetry; apply Z.leb_gt; lia).
    rewrite Hns.
    pose proof (add_months_later _ _ _ Hps Hpos Hend) as Hlater.
    assert (Hmax : date_lt proj_end (date_max start proj_start) = false).
    { unfold date_max. destruct (date_lt start proj_start); [ | assumption ].
      apply date_lt_asym. assumption. }
    assert (Hvmax : valid_date (date_max start proj_start) = true)
      by (apply date_max_valid; assumption).
    pose proof (days_inclusive_pos _ _ Hvmax Hpe Hmax) as Hdays.
    replace (days_inclusive _ _ <=? 0) with false
      by (symmetry; apply Z.leb_gt; lia).
    reflexivity. }
  repeat split.
  - intros Hle. unfold revenue.
    rewrite riv_component_no_months by assumption. reflexivity.
  - intros Hafter. unfold revenue, riv_component. rewrite Hafter.
    destruct (projection_months <=? 0); reflexivity.
  - exact Hmain.
  - intros Hpos Hle. unfold date_le in Hle. apply negb_true_iff in Hle.
    pose proof (add_months_later _ _ _ Hps Hpos Hend) as Hlater.
    assert (Hns : date_lt proj_end start = false).
    { destruct (date_lt proj_end start) eqn:E; [ | reflexivity ].
      pose proof (date_lt_trans _ _ _ Hlater E) as Hc. congruence. }
    rewrite (Hmain Hpos Hns). unfold date_max.
    destruct (date_lt start proj_start) eqn:E; [ reflexivity | ].
    rewrite (date_lt_total _ _ E Hle). reflexivity.
Qed.

(** The bootcamp stream of the page's defaults: 4 bootcamps a year at
    7000, from 1 February 2026, in the window from 1 January 2026 to
    1 January 2028. *)
Lemma riv_component_revenue_witness :
  snd (riv_component 24 (Date 2026 1 1) (Date 2028 1 1)
         (Bootcamps (lit 4 0) (Date 2026 2 1)) (Some (Date 2026 2 1))
         (lit 28000 0))
  = fmul (fdiv (lit 28000 0) f365_25) (of_int 700).
Proof.
  pose proof (riv_component_revenue 24 (Date 2026 1 1) (Date 2028 1 1)
                (Bootcamps (lit 4 0) (Date 2026 2 1)) (Date 2026 2 1)
                (lit 28000 0) eq_refl eq_refl eq_refl)
    as (_ & _ & _ & H & _).
  rewrite H; [ reflexivity | lia | reflexivity ].
Defined.

(* ===================================================================== *)
(** * When [calculate] returns *)
(* ===================================================================== *)

(** [calculate] raises in two places only: [int] on a months count that
    is NaN or infinite, and [date] in [add_months] when the end of the
    window leaves the years 1 to 9999: [ValueError] as long as the year
    fits a C [int], [OverflowError] beyond. *)
Lemma calculate_defined (today : date) (params : Params.t) :
  let proj_start :=
    parse_date (Params.projection_start params) (Date 2026 1 1) in
  match int_of_float (months_read params) with
  | inl e => calculate today params = inl e
  | inr months =>
      let y := year proj_start + (month proj_start - 1 + months) / 12 in
      if (MINYEAR <=? y) && (y <=? MAXYEAR)
      then exists r, calculate today params = inr r /\
                     Inputs.projection_months (inputs r) = months
      else calculate today params
           = inl (if fits_int y then ValueError else OverflowError)
  end.
Proof.
  intros proj_start. unfold calculate, months_read, bind, ret.
  destruct (int_of_float _) as [e|months]; [ reflexivity | ].
  fold proj_start.
  rewrite (add_months_defined proj_start months)
    by (apply parse_date_valid; reflexivity).
  cbv zeta.
  destruct (_ && _); [ | reflexivity ].
  eexists. split; reflexivity.
Qed.

(** The scenarios of the specification: one day of past period at 500 a
    month costs [500 * 12 / 365.25]; 24 months of projection cost 12000
    for operations and 112000 for the director. *)
Example past_period_of_one_day :
  exists r,
    calculate (Date 2024 9 1) (base_defaults (Date 2024 9 1)) = inr r /\
    component KOps (Past.components (past r))
      = Some (fmul (fdiv (fmul (lit 500 0) f12) f365_25) (of_int 1)).
Proof. eexists. split; [ vm_compute; reflexivity | reflexivity ]. Qed.

Example projection_of_two_years :
  exists r,
    calculate a_day (base_defaults a_day) = inr r /\
    Projection.window_end (projection r) = Date 2028 1 1 /\
    component KOpsMonths (Projection.components (projection r))
      = Some (lit 12000 0) /\
    component KDirectorMonths (Projection.components (projection r))
      = Some (lit 112000 0).
Proof.
  eexists. split; [ vm_compute; reflexivity | ].
  repeat split; reflexivity.
Qed.

(** The share that the result echoes is [share_pct * 100.0], which need
    not be the share that was read: 7 percent comes back as
    7.000000000000001. *)
Example share_echo_is_rounded :
  fmul (fdiv (lit 7 0) f100) f100 <> lit 7 0.
Proof. vm_compute. discriminate. Qed.

(** Inside the calendar [calculate] returns. *)
Lemma calculate_in_calendar (today : date) (params : Params.t) (months : Z) :
  int_of_float (months_read params) = inr months ->
  (let proj_start :=
     parse_date (Params.projection_start params) (Date 2026 1 1) in
   1 <= year proj_start + (month proj_start - 1 + months) / 12 <= 9999) ->
  exists r, calculate today params = inr r /\
            Inputs.projection_months (inputs r) = months.
Proof.
  intros Hmonths Hy. cbv zeta in Hy.
  pose proof (calculate_defined today params) as H. cbv zeta in H.
  rewrite Hmonths in H. unfold MINYEAR, MAXYEAR in H.
  match type of H with
  | if (1 <=? ?y) && _ then _ else _ =>
      replace (1 <=? y) with true in H by (symmetry; apply Z.leb_le; lia);
      replace (y <=? 9999) with true in H by (symmetry; apply Z.leb_le; lia)
  end.
  exact H.
Qed.

Section Result.

Variables (today : date) (params : Params.t) (r : result).
Hypothesis Hrun : calculate today params = inr r.

(** The three revenue streams of a result are [riv_component] on the
    months count and the window of that result, and the window ends
    [add_months] after its start. *)
Lemma revenue_streams :
  let i := inputs r in
  let n := Inputs.projection_months i in
  let proj_start := Projection.window_start (projection r) in
  let proj_end := Projection.window_end (projection r) in
  valid_date proj_start = true /\
  add_months proj_start n = inr proj_end /\
  exists l1 l2 l3,
    Riv.components (Projection.riv (projection r)) =
      [ riv_component n proj_start proj_end l1 (Inputs.bootcamp_start i)
          (fmul (Inputs.bootcamp_per_year i) (Inputs.bootcamp_amount i));
        riv_component n proj_start proj_end l2 (Inputs.coaching_start i)
          (fmul (Inputs.coaching_per_year i) (Inputs.coaching_amount i));
        riv_component n proj_start proj_end l3 (Inputs.llm_start i)
          (fmul (fmul (Inputs.llm_clients i) (Inputs.llm_monthly i)) f12) ]
    /\
    Riv.company_total (Projection.riv (projection r)) =
      sum_values (Riv.components (Projection.riv (projection r))).
Proof.
  pose proof Hrun as H.
  run_calculate H months proj_end Hmonths Hend.
  cbv zeta. split; [ apply parse_date_valid; reflexivity | ].
  split; [ exact Hend | ].
  do 3 eexists. split; reflexivity.
Qed.

(** C8.  The stakeholder totals are the company totals times the share:
    past, projection and revenue totals are each the company total
    multiplied by [share_percent / 100]. *)
Theorem stakeholder_totals_linear :
  let share := fdiv (share_percent params) f100 in
  Past.friend_total (past r) = fmul (Past.company_total (past r)) share /\
  Projection.friend_total (projection r) =
    fmul (Projection.company_total (projection r)) share /\
  Riv.friend_total (Projection.riv (projection r)) =
    fmul (Riv.company_total (Projection.riv (projection r))) share.
Proof.
  pose proof Hrun as H.
  run_calculate H months proj_end Hmonths Hend.
  repeat split; reflexivity.
Qed.

(** C1, amended.  The legal fee is in the past total exactly when
    [legal_fee_date <= join_date] and in the projection total exactly when
    [proj_start <= legal_fee_date <= proj_end]; each total is the sum of
    its components.  When [join_date] is before [proj_start] it is never in
    both, and a fee dated strictly between the two is in neither. *)
Theorem legal_fee_attribution :
  let i := inputs r in
  let join_date := Inputs.join_date i in
  let proj_start := Projection.window_start (projection r) in
  let proj_end := Projection.window_end (projection r) in
  exists legal_fee_date,
    Inputs.legal_fee_date i = Some legal_fee_date /\
    proj_start = Inputs.projection_start i /\
    add_months proj_start (Inputs.projection_months i) = inr proj_end /\
    let in_past := date_le legal_fee_date join_date in
    let in_window :=
      date_le proj_start legal_fee_date && date_le legal_fee_date proj_end in
    let past_legal := if in_past then Inputs.legal_fee i else zero in
    let proj_legal := if in_window then Inputs.legal_fee i else zero in
    component KLegalPast (Past.components (past r)) = Some past_legal /\
    Past.company_total (past r) = add_up (Past.components (past r)) /\
    component KLegalWindow (Projection.components (projection r))
      = Some proj_legal /\
    Projection.company_total (projection r)
      = add_up (Projection.components (projection r)) /\
    (date_lt join_date proj_start = true -> in_past && in_window = false) /\
    (date_lt join_date legal_fee_date = true ->
     date_lt legal_fee_date proj_start = true ->
     past_legal = zero /\ proj_legal = zero).
Proof.
  pose proof Hrun as H.
  run_calculate H months proj_end Hmonths Hend.
  cbv beta iota delta
    [inputs past projection Inputs.join_date Inputs.legal_fee_date
     Inputs.projection_start Inputs.projection_months Inputs.legal_fee
     Projection.window_start Projection.window_end Past.components
     Past.company_total Projection.components Projection.company_total].
  eexists.
  split; [ reflexivity | ]. split; [ reflexivity | ].
  split; [ exact Hend | ].
  cbv zeta.
  split; [ reflexivity | ]. split; [ reflexivity | ].
  split; [ reflexivity | ]. split; [ reflexivity | ].
  split.
  - apply window_after_join.
  - unfold date_le. intros Hafter Hbefore. rewrite Hafter, Hbefore.
    simpl. auto.
Qed.

(** C4, amended.  When every numeric input is [>= 0], no total is
    negative: the company and stakeholder totals of the past, of the
    projection and of the revenue, the monthly average and the summary
    figures other than the net position are each [>= 0] or NaN.  The net
    position is the total owed minus the revenue share. *)
Theorem totals_not_negative
    (Htoday : valid_date today = true)
    (Hin : inputs_nonneg (share_percent params) (inputs r)) :
  not_negative (Past.company_total (past r)) /\
  not_negative (Past.friend_total (past r)) /\
  not_negative (Projection.company_total (projection r)) /\
  not_negative (Projection.friend_total (projection r)) /\
  not_negative (Projection.friend_avg_month (projection r)) /\
  not_negative (Riv.company_total (Projection.riv (projection r))) /\
  not_negative (Riv.friend_total (Projection.riv (projection r))) /\
  not_negative (Summary.friend_due_to_join (summary r)) /\
  not_negative (snd (Summary.friend_future (summary r))) /\
  not_negative (Summary.friend_total_all (summary r)) /\
  not_negative (Summary.friend_riv_projection (summary r)) /\
  Summary.friend_net_after_riv (summary r)
    = fsub (Summary.friend_total_all (summary r))
           (Summary.friend_riv_projection (summary r)).
Proof.
  pose proof Hrun as H.
  run_calculate H months proj_end Hmonths Hend.
  destruct Hin as (Hshare & Hcash & Hportal & Hfin & Hweb & Hops & Hfee &
                   Hsal & Hbn & Hba & Hcn & Hca & Hln & Hlm & Hmon).
  cbv beta iota delta
    [inputs Inputs.past_cash_total Inputs.portal_val Inputs.finance_val
     Inputs.website_val Inputs.monthly_ops Inputs.legal_fee
     Inputs.director_salary_year Inputs.bootcamp_per_year
     Inputs.bootcamp_amount Inputs.coaching_per_year Inputs.coaching_amount
     Inputs.llm_clients Inputs.llm_monthly Inputs.projection_months]
    in Hcash, Hportal, Hfin, Hweb, Hops, Hfee, Hsal, Hbn, Hba, Hcn, Hca,
       Hln, Hlm, Hmon.
  unfold share_percent in Hshare.
  cbv beta iota delta
    [past projection summary Past.company_total Past.friend_total
     Projection.company_total Projection.friend_total
     Projection.friend_avg_month Projection.riv Riv.company_total
     Riv.friend_total Summary.friend_due_to_join Summary.friend_future
     Summary.friend_total_all Summary.friend_riv_projection
     Summary.friend_net_after_riv snd].
  set (share := fdiv _ f100).
  assert (Hs : not_negative share)
    by (apply fdiv_not_negative; [ auto with sign | reflexivity ]).
  set (past_legal := if date_le _ _ then _ else zero).
  assert (Hpl : not_negative past_legal)
    by (unfold past_legal; destruct (date_le _ _);
        [ auto with sign | reflexivity ]).
  set (proj_legal := if date_le _ _ && date_le _ _ then _ else zero).
  assert (Hjl : not_negative proj_legal)
    by (unfold proj_legal; destruct (date_le _ _ && date_le _ _);
        [ auto with sign | reflexivity ]).
  match goal with
  | |- context [fadd (fadd (fadd (fadd ?c ?a) ?o) ?d) past_legal] =>
      set (past_total := fadd (fadd (fadd (fadd c a) o) d) past_legal)
  end.
  assert (Hpast : not_negative past_total).
  { unfold past_total.
    repeat apply fadd_not_negative; auto with sign.
    - apply fmul_not_negative.
      + apply fdiv_not_negative; [ | reflexivity ].
        apply fmul_not_negative; [ auto with sign | reflexivity ].
      + apply of_int_not_negative, days_inclusive_nonneg;
          intros d0 E; injection E as <-; auto with sign.
    - apply fmul_not_negative.
      + apply fdiv_not_negative; [ auto with sign | reflexivity ].
      + apply of_int_not_negative, days_inclusive_nonneg;
          intros d0 E; injection E as <-; auto with sign. }
  match goal with
  | |- context [fadd (fadd ?o ?d) proj_legal] =>
      set (proj_total := fadd (fadd o d) proj_legal)
  end.
  assert (Hproj : not_negative proj_total).
  { unfold proj_total.
    repeat apply fadd_not_negative; auto with sign.
    apply fmul_not_negative; [ auto with sign | ].
    apply fdiv_not_negative; [ auto with sign | reflexivity ]. }
  unfold sum_values. cbn [fold_left].
  match goal with
  | |- context [fadd (fadd (fadd (of_int 0) ?a) ?b) ?c] =>
      set (riv_total := fadd (fadd (fadd (of_int 0) a) b) c)
  end.
  assert (Hriv : not_negative riv_total).
  { unfold riv_total.
    repeat apply fadd_not_negative; try reflexivity;
      apply riv_component_not_negative;
      repeat apply fmul_not_negative; auto with sign; reflexivity. }
  repeat split; auto with sign.
  destruct (0 <? months); [ | reflexivity ].
  apply fdiv_not_negative; auto with sign.
Qed.

(** What a result with a months count of zero or less looks like: no
    revenue stream earns anything and the monthly average is 0. *)
Lemma no_months_no_revenue
    (Hle : Inputs.projection_months (inputs r) <= 0) :
  map snd (Riv.components (Projection.riv (projection r)))
    = [zero; zero; zero] /\
  Riv.company_total (Projection.riv (projection r)) = zero /\
  Projection.friend_avg_month (projection r) = zero.
Proof.
  pose proof Hrun as H.
  run_calculate H months proj_end Hmonths Hend.
  cbv beta iota delta
    [inputs projection Inputs.projection_months Projection.riv
     Riv.components Riv.company_total Projection.friend_avg_month]
    in Hle |- *.
  rewrite !riv_component_no_months by lia.
  replace (0 <? months) with false by (symmetry; apply Z.ltb_ge; lia).
  repeat split; reflexivity.
Qed.

(** The projected costs are the rates times the months count, and with a
    negative count they are [<= 0] for rates that are [>= 0]. *)
Lemma negative_months_costs
    (Hneg : Inputs.projection_months (inputs r) < 0) :
  let i := inputs r in
  let n := Inputs.projection_months i in
  let proj_ops_cost := fmul (Inputs.monthly_ops i) (of_int n) in
  let proj_director_cost :=
    fmul (Inputs.director_salary_year i) (fdiv (of_int n) f12) in
  component KOpsMonths (Projection.components (projection r))
    = Some proj_ops_cost /\
  component KDirectorMonths (Projection.components (projection r))
    = Some proj_director_cost /\
  (nonneg (Inputs.monthly_ops i) -> nonpos proj_ops_cost) /\
  (nonneg (Inputs.director_salary_year i) -> nonpos proj_director_cost).
Proof.
  pose proof Hrun as H.
  run_calculate H months proj_end Hmonths Hend.
  cbv beta iota delta
    [inputs projection Inputs.projection_months Inputs.monthly_ops
     Inputs.director_salary_year Projection.components] in Hneg |- *.
  assert (Hlow : - 2 ^ 53 < months).
  { apply add_months_inr in Hend. destruct Hend as (Hy & _ & _ & Hv).
    apply valid_date_spec in Hv. destruct Hv as (Hyear & _).
    rewrite Hy in Hyear.
    pose proof (parse_date_valid (Params.projection_start params)
                  (Date 2026 1 1) eq_refl) as Hps.
    apply valid_date_spec in Hps. destruct Hps as (Hys & Hms & _).
    change (2 ^ 53) with 9007199254740992.
    Z.to_euclidean_division_equations; lia. }
  destruct (of_int_negative months (conj Hlow Hneg))
    as (m & e & Hof & Hdig & Hexp).
  destruct (fdiv_12_negative m e Hdig Hexp) as (m' & e' & Hdiv).
  cbv zeta.
  split; [ reflexivity | ]. split; [ reflexivity | ].
  split; intros Hr.
  - rewrite Hof. apply fmul_nonpos; assumption.
  - rewrite Hof, Hdiv. apply fmul_nonpos; assumption.
Qed.

End Result.

(** A fee dated 1 September 2025, between a join date of 1 June 2025 and
    the start of the projection on 1 January 2026, is in neither total. *)
Lemma legal_fee_attribution_witness :
  exists r,
    calculate a_day_before_the_projection
      (set_legal_fee_date (Read [2025; 9; 1])
         (base_defaults a_day_before_the_projection)) = inr r /\
    component KLegalPast (Past.components (past r)) = Some zero /\
    component KLegalWindow (Projection.components (projection r)) = Some zero.
Proof.
  destruct (calculate a_day_before_the_projection
              (set_legal_fee_date (Read [2025; 9; 1])
                 (base_defaults a_day_before_the_projection)))
    as [e|r] eqn:E; [ vm_compute in E; discriminate | ].
  exists r. split; [ reflexivity | ].
  destruct (legal_fee_attribution _ _ r E)
    as (lfd & Hl & _ & _ & Hp & _ & Hw & _ & _ & Hgap).
  evaluate E r.
  vm_compute in Hl. apply (f_equal (fun o => match o with
                                             | Some d => d
                                             | None => lfd
                                             end)) in Hl. subst lfd.
  destruct (Hgap eq_refl eq_refl) as [Hz1 Hz2].
  rewrite Hz1 in Hp. rewrite Hz2 in Hw. split; assumption.
Defined.

(** C1 as stated fails: on the page's own defaults, with a join date of
    3 November 2026, the fee of 15 January 2026 is in the past total and
    in the projection total. *)
Lemma legal_fee_counted_twice :
  exists r, calculate a_day (base_defaults a_day) = inr r /\
    Inputs.join_date (inputs r) = Date 2026 11 3 /\
    Inputs.legal_fee_date (inputs r) = Some (Date 2026 1 15) /\
    Projection.window_start (projection r) = Date 2026 1 1 /\
    Projection.window_end (projection r) = Date 2028 1 1 /\
    component KLegalPast (Past.components (past r)) = Some (lit 2500 0) /\
    component KLegalWindow (Projection.components (projection r))
      = Some (lit 2500 0).
Proof.
  eexists. split; [ vm_compute; reflexivity | ].
  repeat split; reflexivity.
Qed.

Lemma stakeholder_totals_linear_witness :
  exists r, calculate a_day (base_defaults a_day) = inr r /\
    Past.friend_total (past r)
      = fmul (Past.company_total (past r)) (fdiv (lit 40 0) f100).
Proof.
  destruct (calculate a_day (base_defaults a_day)) as [e|r] eqn:E;
    [ vm_compute in E; discriminate | ].
  exists r. split; [ reflexivity | ].
  destruct (stakeholder_totals_linear _ _ r E) as (H & _). exact H.
Defined.

Lemma totals_not_negative_witness :
  exists r, calculate a_day (base_defaults a_day) = inr r /\
    not_negative (Past.company_total (past r)) /\
    not_negative (Summary.friend_total_all (summary r)).
Proof.
  destruct (calculate a_day (base_defaults a_day)) as [e|r] eqn:E;
    [ vm_compute in E; discriminate | ].
  exists r. split; [ reflexivity | ].
  assert (Hin : inputs_nonneg (share_percent (base_defaults a_day))
                              (inputs r))
    by (evaluate E r; repeat split; vm_compute; congruence).
  pose proof (totals_not_negative _ _ r E eq_refl Hin) as H.
  split; apply H.
Defined.

(** C4 as stated fails twice.  With no cost at all and the default revenue
    streams every input is [>= 0] and the net position is negative.  With
    monthly costs of 2^1023 (a finite float) and a join date before the
    start of the calculation the daily rate overflows to infinity, the
    past costs are infinity times 0 days, and the past total is NaN, which
    is not [>= 0]. *)
Lemma totals_negative_or_nan :
  (exists r, calculate a_day no_costs = inr r /\
     inputs_nonneg (share_percent no_costs) (inputs r) /\
     negative (Summary.friend_net_after_riv (summary r))) /\
  (let params :=
     set_monthly_ops (Read (lit 1 1023))
       (set_join_date (Read [2024; 8; 31]) (base_defaults a_day)) in
   exists r, calculate a_day params = inr r /\
     inputs_nonneg (share_percent params) (inputs r) /\
     Past.company_total (past r) = nan /\
     ~ nonneg (Past.company_total (past r))).
Proof.
  split.
  - eexists. split; [ vm_compute; reflexivity | ].
    split; [ | reflexivity ].
    repeat split; vm_compute; congruence.
  - eexists. split; [ vm_compute; reflexivity | ].
    split; [ repeat split; vm_compute; congruence | ].
    split; [ reflexivity | ]. vm_compute. discriminate.
Qed.

(* ===================================================================== *)
(** * Frame and determinism *)
(* ===================================================================== *)

(** C9.  Two mappings that agree on the share and on every field of the
    past period have the same past breakdown, the same past totals and
    the same amount due at the join date, whatever their projection and
    revenue fields are. *)
Theorem past_breakdown_frame (today : date) (p1 p2 : Params.t)
    (r1 r2 : result)
    (Hsame : same_past_fields p1 p2)
    (H1 : calculate today p1 = inr r1)
    (H2 : calculate today p2 = inr r2) :
  past r1 = past r2 /\
  Past.company_total (past r1) = Past.company_total (past r2) /\
  Past.friend_total (past r1) = Past.friend_total (past r2) /\
  Summary.friend_due_to_join (summary r1)
    = Summary.friend_due_to_join (summary r2).
Proof.
  destruct Hsame
    as (E1 & E2 & E3 & E4 & E5 & E6 & E7 & E8 & E9 & E10 & E11 & E12).
  unfold calculate, bind, ret in H1, H2.
  destruct (int_of_float _) as [?|months1] in H1; [ discriminate | ].
  destruct (add_months _ months1) as [?|proj_end1] in H1; [ discriminate | ].
  destruct (int_of_float _) as [?|months2] in H2; [ discriminate | ].
  destruct (add_months _ months2) as [?|proj_end2] in H2; [ discriminate | ].
  apply inr_inj in H1. apply inr_inj in H2. subst r1 r2.
  cbv beta iota delta
    [past summary Past.company_total Past.friend_total
     Summary.friend_due_to_join].
  rewrite E1, E2, E3, E4, E5, E6, E7, E8, E9, E10, E11, E12.
  repeat split; reflexivity.
Qed.

Lemma past_breakdown_frame_witness :
  exists r1 r2,
    calculate a_day (base_defaults a_day) = inr r1 /\
    calculate a_day other_projection = inr r2 /\
    past r1 = past r2.
Proof.
  destruct (calculate a_day (base_defaults a_day)) as [e|r1] eqn:E1;
    [ vm_compute in E1; discriminate | ].
  destruct (calculate a_day other_projection) as [e|r2] eqn:E2;
    [ vm_compute in E2; discriminate | ].
  exists r1, r2. split; [ reflexivity | ]. split; [ reflexivity | ].
  apply (past_breakdown_frame a_day (base_defaults a_day) other_projection
           r1 r2); [ | exact E1 | exact E2 ].
  repeat split; reflexivity.
Defined.

(** C2, amended.  When the join date of the mapping reads as a date of the
    calendar, [calculate] gives the same outcome whatever the day of the
    call: [date.today()] only stands in for a join date that is absent or
    cannot be read. *)
Theorem calculate_deterministic (today1 today2 : date) (params : Params.t)
    (y m d : Z) (rest : list Z)
    (Hjoin : Params.join_date params = Read (y :: m :: d :: rest))
    (Hvalid : valid_date (Date y m d) = true) :
  calculate today1 params = calculate today2 params.
Proof.
  unfold calculate. rewrite Hjoin.
  rewrite !(parse_date_read y m d rest) by assumption. reflexivity.
Qed.

Lemma calculate_deterministic_witness :
  calculate a_day (base_defaults a_day)
  = calculate the_next_day (base_defaults a_day).
Proof.
  apply (calculate_deterministic a_day the_next_day (base_defaults a_day)
           2026 11 3 []); reflexivity.
Defined.

(** C2 as stated fails: the page's defaults posted with an empty join
    date give one past total on 3 November 2026 and another one the day
    after. *)
Lemma calculate_depends_on_today :
  let params := set_join_date Unreadable (base_defaults a_day) in
  calculate a_day params <> calculate the_next_day params.
Proof.
  vm_compute. intros H. discriminate H.
Qed.

(* ===================================================================== *)
(** * Exceptions *)
(* ===================================================================== *)

(** C3, amended.  With a months count that is a finite number,
    [calculate] returns a result exactly when the end of the window lies
    in the years 1 to 9999, whatever the other fields hold: texts that
    cannot be read, dates in any order, a months count of zero or less.
    With zero months or less the result has no revenue and a monthly
    average of 0.  Beyond the calendar [date] raises in [add_months]:
    [ValueError] when the year of the end still fits a C [int] of 32
    bits, [OverflowError] when it does not. *)
Theorem calculate_returns (today : date) (params : Params.t) (months : Z)
    (Hmonths : int_of_float (months_read params) = inr months) :
  let proj_start :=
    parse_date (Params.projection_start params) (Date 2026 1 1) in
  let y := year proj_start + (month proj_start - 1 + months) / 12 in
  (1 <= y <= 9999 ->
   exists r, calculate today params = inr r /\
     Inputs.projection_months (inputs r) = months /\
     (months <= 0 ->
      map snd (Riv.components (Projection.riv (projection r)))
        = [zero; zero; zero] /\
      Projection.friend_avg_month (projection r) = zero)) /\
  (~ 1 <= y <= 9999 -> INT_MIN <= y <= INT_MAX ->
   calculate today params = inl ValueError) /\
  (~ INT_MIN <= y <= INT_MAX ->
   calculate today params = inl OverflowError).
Proof.
  intros proj_start y. split.
  - intros Hy.
    destruct (calculate_in_calendar today params months Hmonths Hy)
      as (r & Hr & Hm).
    exists r. split; [ exact Hr | ]. split; [ exact Hm | ].
    intros Hle.
    destruct (no_months_no_revenue today params r Hr) as (A & _ & B);
      [ lia | ]. split; assumption.
  - pose proof (calculate_defined today params) as H. cbv zeta in H.
    rewrite Hmonths in H. fold proj_start in H. fold y in H.
    unfold MINYEAR, MAXYEAR, fits_int in H.
    unfold INT_MIN, INT_MAX in *.
    split; intros Hy; [ intros Hfit | ];
      destruct (Z.leb_spec 1 y), (Z.leb_spec y 9999),
               (Z.leb_spec (- 2 ^ 31) y), (Z.leb_spec y (2 ^ 31 - 1));
      simpl in H; try assumption; lia.
Qed.

(** A form with every field left empty on 3 November 2026, and the
    page's defaults with zero months. *)
Lemma calculate_returns_witness :
  (exists r, calculate a_day all_empty = inr r) /\
  (exists r,
     calculate a_day (set_projection_months (F 0) (base_defaults a_day))
       = inr r /\
     Projection.friend_avg_month (projection r) = zero).
Proof.
  split.
  - destruct (calculate_returns a_day all_empty 24 eq_refl) as (H & _ & _).
    destruct H as (r & Hr & _); [ vm_compute; split; discriminate | ].
    exists r. exact Hr.
  - destruct (calculate_returns a_day
                (set_projection_months (F 0) (base_defaults a_day)) 0
                eq_refl) as (H & _ & _).
    destruct H as (r & Hr & _ & Hz); [ vm_compute; split; discriminate | ].
    exists r. split; [ exact Hr | ]. apply Hz. lia.
Defined.

(** C3 as stated fails.  A months count of a million puts the end of the
    window in the year 85359, and one of 10^11 in the year 8333335359,
    which no C [int] holds: [date] raises in [add_months], [ValueError]
    for the first and [OverflowError] for the second.  A months count
    that reads as infinity or as NaN ([float] accepts the texts "inf" and
    "nan") makes [int] raise.  None of the exceptions is caught. *)
Lemma calculate_raises :
  calculate a_day (set_projection_months (F 1000000) (base_defaults a_day))
    = inl ValueError /\
  calculate a_day
    (set_projection_months (F 100000000000) (base_defaults a_day))
    = inl OverflowError /\
  calculate a_day (set_projection_months (Read inf) (base_defaults a_day))
    = inl OverflowError /\
  calculate a_day (set_projection_months (Read nan) (base_defaults a_day))
    = inl ValueError.
Proof. repeat split; vm_compute; reflexivity. Qed.

(** C10, amended.  With a negative months count that leaves the end of
    the window in the calendar, [calculate] returns a result in which the
    projected costs are the rates times the months count, both [<= 0]
    when the rates are [>= 0]; no revenue stream earns anything and the
    monthly average is 0.  The months count is neither checked nor
    clamped. *)
Theorem negative_months_projection (today : date) (params : Params.t)
    (months : Z)
    (Hmonths : int_of_float (months_read params) = inr months)
    (Hneg : months < 0)
    (Hyear :
       let proj_start :=
         parse_date (Params.projection_start params) (Date 2026 1 1) in
       1 <= year proj_start + (month proj_start - 1 + months) / 12) :
  exists r, calculate today params = inr r /\
    let i := inputs r in
    let proj_ops_cost := fmul (Inputs.monthly_ops i) (of_int months) in
    let proj_director_cost :=
      fmul (Inputs.director_salary_year i) (fdiv (of_int months) f12) in
    Inputs.projection_months i = months /\
    component KOpsMonths (Projection.components (projection r))
      = Some proj_ops_cost /\
    component KDirectorMonths (Projection.components (projection r))
      = Some proj_director_cost /\
    (nonneg (Inputs.monthly_ops i) -> nonpos proj_ops_cost) /\
    (nonneg (Inputs.director_salary_year i) -> nonpos proj_director_cost) /\
    map snd (Riv.components (Projection.riv (projection r)))
      = [zero; zero; zero] /\
    Riv.company_total (Projection.riv (projection r)) = zero /\
    Projection.friend_avg_month (projection r) = zero.
Proof.
  cbv zeta in Hyear.
  destruct (calculate_in_calendar today params months Hmonths)
    as (r & Hr & Hm).
  { cbv zeta. split; [ exact Hyear | ].
    pose proof (parse_date_valid (Params.projection_start params)
                  (Date 2026 1 1) eq_refl) as Hps.
    apply valid_date_spec in Hps. destruct Hps as (Hys & Hms & _).
    Z.to_euclidean_division_equations; lia. }
  exists r. split; [ exact Hr | ]. cbv zeta.
  split; [ exact Hm | ].
  destruct (negative_months_costs today params r Hr) as (A & B & C & D);
    [ lia | ].
  destruct (no_months_no_revenue today params r Hr) as (E & F & G);
    [ lia | ].
  cbv zeta in A, B, C, D. rewrite Hm in A, B, C, D.
  repeat split; assumption.
Qed.

(** The page's defaults with -24 months: the window ends on
    1 January 2024 and the costs of operations are 500 * -24. *)
Lemma negative_months_projection_witness :
  exists r,
    calculate a_day (set_projection_months (F (-24)) (base_defaults a_day))
      = inr r /\
    component KOpsMonths (Projection.components (projection r))
      = Some (fmul (lit 500 0) (of_int (-24))) /\
    Projection.friend_avg_month (projection r) = zero.
Proof.
  destruct (negative_months_projection a_day
              (set_projection_months (F (-24)) (base_defaults a_day))
              (-24) eq_refl)
    as (r & Hr & _ & Hops & _ & _ & _ & _ & _ & Havg);
    [ lia | vm_compute; discriminate | ].
  exists r. split; [ exact Hr | ].
  evaluate Hr r.
  split; [ exact Hops | exact Havg ].
Defined.

(** C10 as stated fails: a months count of -30000 puts the end of the
    window 2500 years before 2026, and [date] raises in [add_months]. *)
Lemma calculate_raises_far_back :
  calculate a_day (set_projection_months (F (-30000)) (base_defaults a_day))
    = inl ValueError.
Proof. vm_compute. reflexivity. Qed.

(** * More of the calendar helpers

    [days_inclusive] and [add_months] beyond their definitions: how day
    counts of adjoining ranges add up, how they grow with the range, and
    what moving a date by whole months keeps. *)

Section Ranges.

Lemma date_le_iff (a b : date) :
  date_le a b = true <->
  year a < year b \/
  (year a = year b /\
   (month a < month b \/ (month a = month b /\ day a <= day b))).
Proof.
  unfold date_le. rewrite negb_true_iff, date_lt_false_iff. lia.
Qed.

Lemma date_le_trans (a b c : date) :
  date_le a b = true -> date_le b c = true -> date_le a c = true.
Proof. rewrite !date_le_iff. lia. Qed.

Lemma days_inclusive_ordered (s e : date) :
  valid_date s = true -> valid_date e = true -> date_le s e = true ->
  days_inclusive (Some s) (Some e) = toordinal e - toordinal s + 1 /\
  toordinal s <= toordinal e.
Proof.
  intros Hs He Hle. unfold date_le in Hle. apply negb_true_iff in Hle.
  simpl. rewrite Hle. unfold sub_days.
  pose proof (toordinal_le s e Hs He Hle). lia.
Qed.

(** X1. A range of valid dates split at a date inside it: the day counts of
    the two parts add up to the count of the whole plus one, the date of
    the split being counted in both parts. *)
Theorem days_inclusive_split (a b c : date)
    (Ha : valid_date a = true) (Hb : valid_date b = true)
    (Hc : valid_date c = true)
    (Hab : date_le a b = true) (Hbc : date_le b c = true) :
  days_inclusive (Some a) (Some c)
  = days_inclusive (Some a) (Some b) + days_inclusive (Some b) (Some c) - 1.
Proof.
  pose proof (date_le_trans a b c Hab Hbc) as Hac.
  destruct (days_inclusive_ordered a b Ha Hb Hab) as [-> _].
  destruct (days_inclusive_ordered b c Hb Hc Hbc) as [-> _].
  destruct (days_inclusive_ordered a c Ha Hc Hac) as [-> _].
  lia.
Qed.

(** The leap year 2024 split at 29 February. *)
Lemma days_inclusive_split_witness :
  days_inclusive (Some (Date 2024 1 1)) (Some (Date 2024 12 31))
  = days_inclusive (Some (Date 2024 1 1)) (Some (Date 2024 2 29))
    + days_inclusive (Some (Date 2024 2 29)) (Some (Date 2024 12 31)) - 1.
Proof.
  apply (days_inclusive_split (Date 2024 1 1) (Date 2024 2 29)
           (Date 2024 12 31)); reflexivity.
Defined.

Lemma days_inclusive_narrow (a b e e' : date) :
  valid_date a = true -> valid_date b = true ->
  valid_date e = true -> valid_date e' = true ->
  date_le a b = true -> date_le e e' = true ->
  days_inclusive (Some b) (Some e) <= days_inclusive (Some a) (Some e').
Proof.
  intros Ha Hb He He' Hab Hee.
  destruct (date_lt e b) eqn:Ebe.
  - simpl days_inclusive at 1. rewrite Ebe.
    apply days_inclusive_nonneg; intros d E; injection E as <-; assumption.
  - assert (Hbe : date_le b e = true) by (unfold date_le; rewrite Ebe; reflexivity).
    pose proof (date_le_trans _ _ _ Hab (date_le_trans _ _ _ Hbe Hee)) as Hae.
    destruct (days_inclusive_ordered b e Hb He Hbe) as [-> _].
    destruct (days_inclusive_ordered a e' Ha He' Hae) as [-> _].
    destruct (days_inclusive_ordered a b Ha Hb Hab) as [_ H1].
    destruct (days_inclusive_ordered e e' He He' Hee) as [_ H2].
    lia.
Qed.

Lemma date_max_ge (a b : date) :
  date_le a (date_max a b) = true /\ date_le b (date_max a b) = true.
Proof.
  unfold date_max, date_le. destruct (date_lt a b) eqn:E.
  - rewrite (date_lt_asym _ _ E), date_lt_irrefl. auto.
  - rewrite date_lt_irrefl, E. auto.
Qed.

Lemma date_le_refl (a : date) : date_le a a = true.
Proof. unfold date_le. rewrite date_lt_irrefl. reflexivity. Qed.

(** The later of two starts gives the shorter count. *)
Lemma days_inclusive_date_max (a b e : date) :
  valid_date a = true -> valid_date b = true -> valid_date e = true ->
  days_inclusive (Some (date_max a b)) (Some e)
    <= Z.min (days_inclusive (Some a) (Some e))
             (days_inclusive (Some b) (Some e)) /\
  (date_le a b = true ->
   days_inclusive (Some (date_max a b)) (Some e)
     = days_inclusive (Some b) (Some e)).
Proof.
  intros Ha Hb He.
  destruct (date_max_ge a b) as [H1 H2].
  pose proof (date_max_valid a b Ha Hb) as Hm.
  split.
  - apply Z.min_glb; apply days_inclusive_narrow;
      try assumption; apply date_le_refl.
  - intros Hab. unfold date_max. destruct (date_lt a b) eqn:E; [ reflexivity | ].
    unfold date_le in Hab. apply negb_true_iff in Hab.
    rewrite (date_lt_total _ _ E Hab). reflexivity.
Qed.

(** X2. The day count grows with the range: a range of valid dates that
    lies inside another one has at most its days.  Starting at the later
    of two dates, as [calculate] does for the director and the revenue
    streams, gives at most the count from either of them, and the count
    from the second one when the first one is not later. *)
Theorem days_inclusive_monotone (a b e e' : date)
    (Ha : valid_date a = true) (Hb : valid_date b = true)
    (He : valid_date e = true) (He' : valid_date e' = true) :
  (date_le a b = true -> date_le e e' = true ->
   days_inclusive (Some b) (Some e) <= days_inclusive (Some a) (Some e')) /\
  days_inclusive (Some (date_max a b)) (Some e)
    <= Z.min (days_inclusive (Some a) (Some e))
             (days_inclusive (Some b) (Some e)) /\
  (date_le a b = true ->
   days_inclusive (Some (date_max a b)) (Some e)
     = days_inclusive (Some b) (Some e)).
Proof.
  split; [ apply days_inclusive_narrow; assumption | ].
  apply days_inclusive_date_max; assumption.
Qed.

Lemma days_inclusive_monotone_witness :
  days_inclusive (Some (Date 2025 6 1)) (Some (Date 2026 1 31))
  <= days_inclusive (Some (Date 2024 9 1)) (Some (Date 2026 11 3)).
Proof.
  destruct (days_inclusive_monotone (Date 2024 9 1) (Date 2025 6 1)
              (Date 2026 1 31) (Date 2026 11 3)
              eq_refl eq_refl eq_refl eq_refl) as (H & _).
  apply H; reflexivity.
Defined.

(** The months of a date counted from year 0, and its day, after
    [add_months]. *)
Lemma add_months_index (d : date) (months : Z) (d' : date) :
  valid_date d = true -> add_months d months = inr d' ->
  12 * year d' + month d' = 12 * year d + month d + months /\
  1 <= day d' <= day d /\
  (day d <= 28 -> day d' = day d) /\
  (day d' < day d -> day d' = days_in_month (year d') (month d')).
Proof.
  intros Hd H.
  apply add_months_inr in H. destruct H as (Hy & Hm & Hday & Hv).
  apply valid_date_spec in Hd. apply valid_date_spec in Hv.
  destruct Hd as (_ & Hmd & Hdd), Hv as (_ & Hmd' & Hdd').
  pose proof (days_in_month_bounds (year d') (month d') Hmd').
  repeat split; try lia.
  rewrite Hy, Hm. Z.to_euclidean_division_equations; lia.
Qed.

(** X3. [add_months] moves a valid date by exactly the asked number of
    calendar months, forwards or backwards.  The day of the month never
    grows; it stays as it is up to the 28th, and where it shrinks the
    result is the last day of its month. *)
Theorem add_months_shift (d : date) (months : Z) (d' : date)
    (Hd : valid_date d = true)
    (H : add_months d months = inr d') :
  12 * year d' + month d' = 12 * year d + month d + months /\
  1 <= day d' <= day d /\
  (day d <= 28 -> day d' = day d) /\
  (day d' < day d -> day d' = days_in_month (year d') (month d')).
Proof. exact (add_months_index d months d' Hd H). Qed.

(** One month after 31 January 2024 is the last day of February. *)
Lemma add_months_shift_witness :
  add_months (Date 2024 1 31) 1 = inr (Date 2024 2 29) /\
  day (Date 2024 2 29) = days_in_month 2024 2.
Proof.
  split; [ reflexivity | ].
  destruct (add_months_shift (Date 2024 1 31) 1 (Date 2024 2 29)
              eq_refl eq_refl) as (_ & _ & _ & H).
  apply H. simpl. lia.
Defined.

Lemma add_months_same_month (d : date) (a b : Z) (d1 d2 : date) :
  valid_date d = true ->
  add_months d a = inr d1 -> add_months d1 b = inr d2 ->
  year d2 = year d + (month d - 1 + (a + b)) / 12 /\
  month d2 = (month d - 1 + (a + b)) mod 12 + 1.
Proof.
  intros Hd H1 H2.
  assert (Hd1 : valid_date d1 = true) by (apply add_months_inr in H1; tauto).
  destruct (add_months_index d a d1 Hd H1) as (S1 & _).
  destruct (add_months_index d1 b d2 Hd1 H2) as (S2 & _).
  apply add_months_inr in H2. destruct H2 as (_ & _ & _ & Hv2).
  apply valid_date_spec in Hv2. destruct Hv2 as (_ & Hm2 & _).
  Z.to_euclidean_division_equations; lia.
Qed.

(** X4. Two moves in a row against one move by the sum: both reach the
    same month of the same year, and the single move never gives an
    earlier day (31 January moved by one month twice is 29 March 2024,
    moved by two months it is 31 March).  From a day up to the 28th the
    two ways give the same date. *)
Theorem add_months_twice (d : date) (a b : Z) (d1 d2 : date)
    (Hd : valid_date d = true)
    (H1 : add_months d a = inr d1) (H2 : add_months d1 b = inr d2) :
  exists d3, add_months d (a + b) = inr d3 /\
    year d3 = year d2 /\ month d3 = month d2 /\ day d2 <= day d3 /\
    (day d <= 28 -> d2 = d3).
Proof.
  destruct (add_months_same_month d a b d1 d2 Hd H1 H2) as [Hy Hm].
  assert (Hd1 : valid_date d1 = true) by (apply add_months_inr in H1; tauto).
  destruct (add_months_index d a d1 Hd H1) as (_ & Hday1 & Hsmall1 & _).
  destruct (add_months_index d1 b d2 Hd1 H2) as (_ & Hday2 & Hsmall2 & _).
  pose proof H2 as H2'. apply add_months_inr in H2'.
  destruct H2' as (_ & _ & Hd2 & Hv2).
  pose proof Hv2 as Hv2'. apply valid_date_spec in Hv2'.
  destruct Hv2' as (Hy2 & Hm2 & Hday2').
  rewrite (add_months_defined d (a + b) Hd). cbv zeta.
  rewrite <- Hy, <- Hm. unfold MINYEAR, MAXYEAR.
  replace (1 <=? year d2) with true by (symmetry; apply Z.leb_le; lia).
  replace (year d2 <=? 9999) with true by (symmetry; apply Z.leb_le; lia).
  cbn [andb]. eexists. split; [ reflexivity | ]. cbn [year month day].
  pose proof (days_in_month_bounds (year d2) (month d2) Hm2).
  repeat split; try lia.
  intros Hsmall. destruct d2 as [y2 m2 dd2]. cbn [year month day] in *.
  f_equal. lia.
Qed.

Lemma add_months_twice_witness :
  exists d3, add_months (Date 2024 1 31) (1 + 1) = inr d3 /\
    year d3 = 2024 /\ month d3 = 3 /\ 29 <= day d3.
Proof.
  destruct (add_months_twice (Date 2024 1 31) 1 1 (Date 2024 2 29)
              (Date 2024 3 29) eq_refl eq_refl eq_refl)
    as (d3 & H & Hy & Hm & Hd & _).
  exists d3. repeat split; assumption.
Defined.

(** X5. Moving back undoes moving forth when the day is at most the 28th:
    [add_months] by [- months] returns the date a move by [months]
    started from. *)
Theorem add_months_back (d : date) (months : Z) (d' : date)
    (Hd : valid_date d = true) (Hday : day d <= 28)
    (H : add_months d months = inr d') :
  add_months d' (- months) = inr d.
Proof.
  assert (Hd' : valid_date d' = true) by (apply add_months_inr in H; tauto).
  destruct (add_months_index d months d' Hd H) as (Hs & _ & Hsame & _).
  rewrite (add_months_defined d' (- months) Hd'). cbv zeta.
  apply valid_date_spec in Hd. destruct Hd as (Hy & Hm & Hdd).
  apply valid_date_spec in Hd'. destruct Hd' as (Hy' & Hm' & Hdd').
  replace (year d' + (month d' - 1 + - months) / 12) with (year d)
    by (Z.to_euclidean_division_equations; lia).
  replace ((month d' - 1 + - months) mod 12 + 1) with (month d)
    by (Z.to_euclidean_division_equations; lia).
  unfold MINYEAR, MAXYEAR.
  replace (1 <=? year d) with true by (symmetry; apply Z.leb_le; lia).
  replace (year d <=? 9999) with true by (symmetry; apply Z.leb_le; lia).
  cbn [andb]. rewrite Hsame by assumption.
  pose proof (days_in_month_bounds (year d) (month d) Hm).
  rewrite Z.min_l by lia. destruct d; reflexivity.
Qed.

Lemma add_months_back_witness :
  add_months (Date 2028 1 15) (- 24) = inr (Date 2026 1 15).
Proof.
  apply (add_months_back (Date 2026 1 15) 24 (Date 2028 1 15));
    [ reflexivity | simpl; lia | reflexivity ].
Defined.

(** More months from the same date give a later date. *)
Lemma add_months_increasing (d : date) (n1 n2 : Z) (d1 d2 : date) :
  valid_date d = true -> n1 < n2 ->
  add_months d n1 = inr d1 -> add_months d n2 = inr d2 ->
  date_lt d1 d2 = true /\ toordinal d1 < toordinal d2.
Proof.
  intros Hd Hlt H1 H2.
  destruct (add_months_index d n1 d1 Hd H1) as (S1 & _).
  destruct (add_months_index d n2 d2 Hd H2) as (S2 & _).
  assert (V1 : valid_date d1 = true) by (apply add_months_inr in H1; tauto).
  assert (V2 : valid_date d2 = true) by (apply add_months_inr in H2; tauto).
  assert (L : date_lt d1 d2 = true).
  { apply date_lt_spec.
    pose proof V1 as V1'. pose proof V2 as V2'.
    apply valid_date_spec in V1'. apply valid_date_spec in V2'. lia. }
  split; [ exact L | apply toordinal_lt; assumption ].
Qed.

(** X6. [add_months] is strictly increasing in the number of months: from
    the same valid date, more months give a later date, whatever the
    clamping of the day does. *)
Theorem add_months_monotone (d : date) (n1 n2 : Z) (d1 d2 : date)
    (Hd : valid_date d = true) (Hlt : n1 < n2)
    (H1 : add_months d n1 = inr d1) (H2 : add_months d n2 = inr d2) :
  date_lt d1 d2 = true /\ toordinal d1 < toordinal d2 /\
  2 <= days_inclusive (Some d1) (Some d2) /\
  days_inclusive (Some d2) (Some d1) = 0.
Proof.
  destruct (add_months_increasing d n1 n2 d1 d2 Hd Hlt H1 H2) as [L T].
  split; [ exact L | ]. split; [ exact T | ].
  simpl. rewrite L, (date_lt_asym _ _ L). unfold sub_days. lia.
Qed.

Lemma add_months_monotone_witness :
  date_lt (Date 2026 2 28) (Date 2026 3 31) = true.
Proof.
  destruct (add_months_monotone (Date 2026 1 31) 1 2 (Date 2026 2 28)
              (Date 2026 3 31) eq_refl) as (H & _);
    [ lia | reflexivity | reflexivity | exact H ].
Defined.

End Ranges.

(** * The counts that become floats

    [calculate] multiplies daily and monthly rates by day counts and by
    the number of months, which Python converts to floats. *)

Section Counts.

(** In the normal range a mantissa of 53 digits is not rounded. *)
Lemma binary_round_aux_exact (s : bool) (m : positive) (e : Z) :
  Zpos (digits2_pos m) = prec -> emin prec emax <= e <= emax - prec ->
  binary_round_aux prec emax s (Zpos m) e loc_Exact = S754_finite s m e.
Proof.
  intros Hd He. unfold binary_round_aux.
  assert (Hshr : shr_fexp prec emax (Zpos m) e loc_Exact
                 = (Build_shr_record (Zpos m) false false, e)).
  { unfold shr_fexp, fexp. cbn [Zdigits2]. rewrite Hd.
    replace (Z.max (prec + e - prec) (emin prec emax) - e) with 0 by lia.
    reflexivity. }
  rewrite Hshr. cbn [shr_m loc_of_shr_record round_nearest_even].
  rewrite Hshr. cbn [shr_m].
  replace (e <=? emax - prec) with true by (symmetry; apply Z.leb_le; lia).
  reflexivity.
Qed.

Lemma iter_xO_pow2 (k p : positive) :
  Zpos (Pos.iter xO p k) = Zpos p * 2 ^ Zpos k.
Proof.
  induction k as [ | k IH ] using Pos.peano_ind.
  - simpl. lia.
  - rewrite Pos.iter_succ, Pos2Z.inj_succ, Z.pow_succ_r by lia.
    rewrite Pos2Z.inj_xO, IH. lia.
Qed.

(** [int(float(n)) == n] below 2^53 in absolute value. *)
Lemma of_int_exact (n : Z) :
  - 2 ^ 53 < n < 2 ^ 53 -> int_of_float (of_int n) = inr n.
Proof.
  intros Hn. change (2 ^ 53) with 9007199254740992 in Hn.
  assert (G : forall (s : bool) (p : positive),
             Zpos p < 9007199254740992 ->
             int_of_float (binary_round prec emax s p 0)
             = inr (cond_Zopp s (Zpos p))).
  { intros s p Hp. unfold binary_round.
    assert (Hd : Zpos (digits2_pos p) <= 53)
      by (apply digits2_pos_le; [ lia | ];
          change (2 ^ 53) with 9007199254740992; lia).
    unfold shl_align, fexp.
    replace (Z.max (Zpos (digits2_pos p) + 0 - prec) (emin prec emax) - 0)
      with (Zpos (digits2_pos p) - 53) by (unfold prec, emin, emax; lia).
    replace (Z.max (Zpos (digits2_pos p) + 0 - prec) (emin prec emax))
      with (Zpos (digits2_pos p) - 53) by (unfold prec, emin, emax; lia).
    destruct (Zpos (digits2_pos p) - 53) as [ | k | k ] eqn:Ek; try lia.
    - rewrite binary_round_aux_exact
        by (unfold prec, emin, emax in *; lia).
      reflexivity.
    - pose proof (digits2_pos_iter_xO k p) as Hk.
      rewrite binary_round_aux_exact
        by (unfold prec, emin, emax in *; lia).
      unfold int_of_float, ret. f_equal. f_equal.
      rewrite iter_xO_pow2.
      change (Z.neg k) with (- Zpos k).
      rewrite Z.shiftl_opp_r, Z.shiftr_div_pow2 by lia.
      apply Z.div_mul. apply Z.pow_nonzero; lia. }
  unfold of_int, binary_normalize.
  destruct n as [ | p | p ]; [ reflexivity | | ].
  - apply (G false). lia.
  - apply (G true). lia.
Qed.

Lemma toordinal_bounds (d : date) :
  valid_date d = true -> 1 <= toordinal d <= 3652059.
Proof.
  intros Hd. apply valid_date_spec in Hd. destruct Hd as (Hy & Hm & Hday).
  unfold toordinal.
  pose proof (days_before_month_bounds (year d) (month d) Hm) as [B1 B2].
  pose proof (days_before_year_mono 1 (year d) ltac:(lia)) as L.
  pose proof (days_before_year_mono (year d + 1) 10000 ltac:(lia)) as U.
  rewrite days_before_year_succ in U.
  change (days_before_year 1) with 0 in L.
  change (days_before_year 10000) with 3652059 in U.
  lia.
Qed.

(** X7. No rounding enters through the counts: a day count between two
    valid dates lies between 0 and 3652059, the number of months of a
    window that [add_months] accepts lies within 119987 either way, and
    both are far below 2^53, so that their conversion to a float is exact
    (converting back gives the same int). *)
Theorem counts_convert_exactly (s e d : date) (months : Z) (d' : date)
    (Hs : valid_date s = true) (He : valid_date e = true)
    (Hd : valid_date d = true) (H : add_months d months = inr d') :
  0 <= days_inclusive (Some s) (Some e) <= 3652059 /\
  int_of_float (of_int (days_inclusive (Some s) (Some e)))
    = inr (days_inclusive (Some s) (Some e)) /\
  -119987 <= months <= 119987 /\
  int_of_float (of_int months) = inr months.
Proof.
  assert (B : 0 <= days_inclusive (Some s) (Some e) <= 3652059).
  { split.
    - apply days_inclusive_nonneg; intros x E; injection E as <-; assumption.
    - simpl. destruct (date_lt e s); [ lia | ].
      pose proof (toordinal_bounds s Hs). pose proof (toordinal_bounds e He).
      unfold sub_days. lia. }
  assert (M : -119987 <= months <= 119987).
  { apply add_months_inr in H. destruct H as (Hy & _ & _ & Hv).
    apply valid_date_spec in Hv. apply valid_date_spec in Hd.
    Z.to_euclidean_division_equations; lia. }
  split; [ exact B | ]. split.
  - apply of_int_exact. change (2 ^ 53) with 9007199254740992. lia.
  - split; [ exact M | ].
    apply of_int_exact. change (2 ^ 53) with 9007199254740992. lia.
Qed.

(** The days of the default window and its 24 months. *)
Lemma counts_convert_exactly_witness :
  int_of_float
    (of_int (days_inclusive (Some (Date 2026 1 1)) (Some (Date 2028 1 1))))
  = inr (days_inclusive (Some (Date 2026 1 1)) (Some (Date 2028 1 1))) /\
  int_of_float (of_int 24) = inr 24.
Proof.
  destruct (counts_convert_exactly (Date 2026 1 1) (Date 2028 1 1)
              (Date 2026 1 1) 24 (Date 2028 1 1)
              eq_refl eq_refl eq_refl eq_refl) as (_ & H1 & _ & H2).
  split; assumption.
Defined.

End Counts.

(** * The result of [calculate]: dates, window and past accrual *)

Section Accrual.

Variables (today : date) (params : Params.t) (r : result).
Hypothesis Htoday : valid_date today = true.
Hypothesis Hrun : calculate today params = inr r.

(** X8. Whatever the form holds, every date of a result is a date of the
    calendar: unreadable and impossible dates have been replaced by their
    defaults, the legal fee date and the three stream starts are always
    present, and the window starts at the projection start and ends at a
    valid date. *)
Theorem result_dates_valid :
  let i := inputs r in
  valid_date (Inputs.calc_start i) = true /\
  valid_date (Inputs.join_date i) = true /\
  valid_date (Inputs.projection_start i) = true /\
  valid_date (Inputs.director_start i) = true /\
  (exists d, Inputs.legal_fee_date i = Some d /\ valid_date d = true) /\
  (exists d, Inputs.bootcamp_start i = Some d /\ valid_date d = true) /\
  (exists d, Inputs.coaching_start i = Some d /\ valid_date d = true) /\
  (exists d, Inputs.llm_start i = Some d /\ valid_date d = true) /\
  Projection.window_start (projection r) = Inputs.projection_start i /\
  valid_date (Projection.window_end (projection r)) = true.
Proof.
  pose proof Hrun as H.
  run_calculate H months proj_end Hmonths Hend.
  cbv zeta.
  cbv beta iota delta
    [inputs projection Inputs.calc_start Inputs.join_date
     Inputs.projection_start Inputs.director_start Inputs.legal_fee_date
     Inputs.bootcamp_start Inputs.coaching_start Inputs.llm_start
     Projection.window_start Projection.window_end].
  assert (Hps : valid_date (parse_date (Params.projection_start params)
                              (Date 2026 1 1)) = true)
    by (apply parse_date_valid; reflexivity).
  repeat split; try (apply parse_date_valid; reflexivity || assumption).
  - eexists. split; [ reflexivity | apply parse_date_valid; reflexivity ].
  - eexists. split; [ reflexivity | apply parse_date_valid; assumption ].
  - eexists. split; [ reflexivity | apply parse_date_valid; assumption ].
  - eexists. split; [ reflexivity | apply parse_date_valid; assumption ].
  - apply add_months_inr in Hend. tauto.
Qed.

(** X9. The sign of the number of months orients the window: with a
    positive number the window ends after its start, with zero it ends on
    its start, and with a negative number it ends before its start, and
    then no legal fee date can fall into it. *)
Theorem window_orientation :
  let n := Inputs.projection_months (inputs r) in
  let proj_start := Projection.window_start (projection r) in
  let proj_end := Projection.window_end (projection r) in
  (0 < n -> date_lt proj_start proj_end = true) /\
  (n = 0 -> proj_end = proj_start) /\
  (n < 0 ->
   date_lt proj_end proj_start = true /\
   component KLegalWindow (Projection.components (projection r))
     = Some zero).
Proof.
  pose proof Hrun as H.
  run_calculate H months proj_end Hmonths Hend.
  cbv zeta.
  cbv beta iota delta
    [inputs projection Inputs.projection_months Projection.window_start
     Projection.window_end Projection.components].
  assert (Hps : valid_date (parse_date (Params.projection_start params)
                              (Date 2026 1 1)) = true)
    by (apply parse_date_valid; reflexivity).
  split; [ | split ].
  - intros Hpos. exact (add_months_later _ _ _ Hps Hpos Hend).
  - intros ->. rewrite add_months_zero in Hend by assumption.
    apply inr_inj in Hend. symmetry. exact Hend.
  - intros Hneg.
    destruct (add_months_increasing _ months 0 proj_end _ Hps Hneg Hend
                (add_months_zero _ Hps)) as [L _].
    split; [ exact L | ].
    cbn [component kind_of kind_eqb].
    set (lfd := parse_date (Params.legal_fee_date params) _).
    set (ps := parse_date (Params.projection_start params) _) in *.
    unfold date_le.
    destruct (date_lt lfd ps) eqn:E1; [ reflexivity | ].
    destruct (date_lt proj_end lfd) eqn:E2; [ reflexivity | ].
    exfalso. apply date_lt_spec in L.
    apply date_lt_false_iff in E1. apply date_lt_false_iff in E2. lia.
Qed.

(** X10. The accrual of the past period: cash and assets enter as given,
    operations and the director's salary as a daily rate times a day
    count.  The director is paid for at most the days of the period, for
    none when the join date precedes the calculation start, and for all
    of them when the director started by the calculation start. *)
Theorem past_accrual :
  let i := inputs r in
  let calc_start := Inputs.calc_start i in
  let join_date := Inputs.join_date i in
  let past_period_days :=
    days_inclusive (Some calc_start) (Some join_date) in
  let director_days_past :=
    days_inclusive (Some (date_max (Inputs.director_start i) calc_start))
                   (Some join_date) in
  let c := Past.components (past r) in
  component KPastCash c = Some (Inputs.past_cash_total i) /\
  component KAssets c
    = Some (fadd (fadd (Inputs.portal_val i) (Inputs.finance_val i))
                 (Inputs.website_val i)) /\
  component KOps c
    = Some (fmul (fdiv (fmul (Inputs.monthly_ops i) f12) f365_25)
                 (of_int past_period_days)) /\
  component KDirector c
    = Some (fmul (fdiv (Inputs.director_salary_year i) f365_25)
                 (of_int director_days_past)) /\
  0 <= director_days_past <= past_period_days /\
  (date_lt join_date calc_start = true ->
   past_period_days = 0 /\ director_days_past = 0) /\
  (date_le (Inputs.director_start i) calc_start = true ->
   director_days_past = past_period_days).
Proof.
  pose proof Hrun as H.
  run_calculate H months proj_end Hmonths Hend.
  cbv zeta.
  cbv beta iota delta
    [inputs past Inputs.calc_start Inputs.join_date Inputs.director_start
     Inputs.past_cash_total Inputs.portal_val Inputs.finance_val
     Inputs.website_val Inputs.monthly_ops Inputs.director_salary_year
     Past.components].
  set (cs := parse_date (Params.calc_start params) _).
  set (jd := parse_date (Params.join_date params) today).
  set (ds := parse_date (Params.director_start params) _).
  assert (Vcs : valid_date cs = true) by (apply parse_date_valid; reflexivity).
  assert (Vjd : valid_date jd = true) by (apply parse_date_valid; assumption).
  assert (Vds : valid_date ds = true) by (apply parse_date_valid; reflexivity).
  destruct (days_inclusive_date_max ds cs jd Vds Vcs Vjd) as (Hmin & Heq).
  split; [ reflexivity | ]. split; [ reflexivity | ].
  split; [ reflexivity | ]. split; [ reflexivity | ].
  split; [ | split ].
  - split; [ | lia ].
    apply days_inclusive_nonneg; intros x E; injection E as <-;
      [ apply date_max_valid | ]; assumption.
  - intros Hrev.
    assert (Z0 : days_inclusive (Some cs) (Some jd) = 0)
      by (simpl; rewrite Hrev; reflexivity).
    split; [ exact Z0 | ].
    assert (0 <= days_inclusive (Some (date_max ds cs)) (Some jd))
      by (apply days_inclusive_nonneg; intros x E; injection E as <-;
          [ apply date_max_valid | ]; assumption).
    lia.
  - exact Heq.
Qed.

End Accrual.

(** The page's defaults on 3 November 2026. *)
Lemma result_dates_valid_witness :
  exists r, calculate a_day (base_defaults a_day) = inr r /\
    valid_date (Inputs.join_date (inputs r)) = true /\
    valid_date (Projection.window_end (projection r)) = true.
Proof.
  destruct (calculate a_day (base_defaults a_day)) as [e|r] eqn:E;
    [ vm_compute in E; discriminate | ].
  exists r. split; [ reflexivity | ].
  destruct (result_dates_valid a_day (base_defaults a_day) r eq_refl E)
    as (_ & H1 & _ & _ & _ & _ & _ & _ & _ & H2).
  split; assumption.
Defined.

(** The page's defaults with 24 months taken back instead. *)
Lemma window_orientation_witness :
  exists r,
    calculate a_day (set_projection_months (F (-24)) (base_defaults a_day))
      = inr r /\
    date_lt (Projection.window_end (projection r))
            (Projection.window_start (projection r)) = true /\
    component KLegalWindow (Projection.components (projection r))
      = Some zero.
Proof.
  destruct (calculate a_day
              (set_projection_months (F (-24)) (base_defaults a_day)))
    as [e|r] eqn:E; [ vm_compute in E; discriminate | ].
  exists r. split; [ reflexivity | ].
  destruct (window_orientation a_day _ r E) as (_ & _ & H).
  apply H. evaluate E r. reflexivity.
Defined.

Lemma past_accrual_witness :
  exists r, calculate a_day (base_defaults a_day) = inr r /\
    0 <= days_inclusive
           (Some (date_max (Inputs.director_start (inputs r))
                           (Inputs.calc_start (inputs r))))
           (Some (Inputs.join_date (inputs r)))
      <= days_inclusive (Some (Inputs.calc_start (inputs r)))
                        (Some (Inputs.join_date (inputs r))).
Proof.
  destruct (calculate a_day (base_defaults a_day)) as [e|r] eqn:E;
    [ vm_compute in E; discriminate | ].
  exists r. split; [ reflexivity | ].
  destruct (past_accrual a_day (base_defaults a_day) r eq_refl E)
    as (_ & _ & _ & _ & H & _).
  exact H.
Defined.

(** * What the projection and the revenue depend on *)

(** X11. The projection depends on seven fields only: two runs, on any
    two days, whose forms agree on the share, the projection start, the
    months, the monthly operations, the legal fee and its date, and the
    director's salary give the same projection, whatever the join date
    and the past fields are. *)
Theorem projection_frame (today1 today2 : date) (p1 p2 : Params.t)
    (r1 r2 : result)
    (Hsame : same_projection_fields p1 p2)
    (H1 : calculate today1 p1 = inr r1)
    (H2 : calculate today2 p2 = inr r2) :
  Projection.components (projection r1)
    = Projection.components (projection r2) /\
  Projection.company_total (projection r1)
    = Projection.company_total (projection r2) /\
  Projection.friend_total (projection r1)
    = Projection.friend_total (projection r2) /\
  Projection.friend_avg_month (projection r1)
    = Projection.friend_avg_month (projection r2) /\
  Projection.window_start (projection r1)
    = Projection.window_start (projection r2) /\
  Projection.window_end (projection r1)
    = Projection.window_end (projection r2) /\
  Summary.friend_future (summary r1) = Summary.friend_future (summary r2).
Proof.
  destruct Hsame as (E1 & E2 & E3 & E4 & E5 & E6 & E7).
  unfold calculate, bind, ret in H1, H2.
  rewrite E2, E3 in H1.
  destruct (int_of_float _) as [?|months] in H1, H2; [ discriminate | ].
  destruct (add_months _ months) as [?|proj_end] in H1, H2; [ discriminate | ].
  apply inr_inj in H1. apply inr_inj in H2. subst r1 r2.
  cbv beta iota delta
    [projection summary Projection.components Projection.company_total
     Projection.friend_total Projection.friend_avg_month
     Projection.window_start Projection.window_end Summary.friend_future].
  rewrite E1, E4, E5, E6, E7.
  repeat split; reflexivity.
Qed.

(** The page's defaults on two days: the join dates differ, the
    projections do not. *)
Lemma projection_frame_witness :
  exists r1 r2,
    calculate a_day (base_defaults a_day) = inr r1 /\
    calculate the_next_day (base_defaults the_next_day) = inr r2 /\
    Projection.components (projection r1)
      = Projection.components (projection r2).
Proof.
  destruct (calculate a_day (base_defaults a_day)) as [e|r1] eqn:E1;
    [ vm_compute in E1; discriminate | ].
  destruct (calculate the_next_day (base_defaults the_next_day))
    as [e|r2] eqn:E2; [ vm_compute in E2; discriminate | ].
  exists r1, r2. split; [ reflexivity | ]. split; [ reflexivity | ].
  destruct (projection_frame a_day the_next_day (base_defaults a_day)
              (base_defaults the_next_day) r1 r2) as (H & _);
    [ repeat split; reflexivity | exact E1 | exact E2 | exact H ].
Defined.

(** X12. The revenue depends on the share, the window and the nine stream
    fields only: two runs that agree on them give the same revenue, on
    any two days and whatever the costs are. *)
Theorem revenue_frame (today1 today2 : date) (p1 p2 : Params.t)
    (r1 r2 : result)
    (Hsame : same_revenue_fields p1 p2)
    (H1 : calculate today1 p1 = inr r1)
    (H2 : calculate today2 p2 = inr r2) :
  Projection.riv (projection r1) = Projection.riv (projection r2) /\
  Summary.friend_riv_projection (summary r1)
    = Summary.friend_riv_projection (summary r2).
Proof.
  destruct Hsame
    as (E1 & E2 & E3 & E4 & E5 & E6 & E7 & E8 & E9 & E10 & E11 & E12).
  unfold calculate, bind, ret in H1, H2.
  rewrite E2, E3 in H1.
  destruct (int_of_float _) as [?|months] in H1, H2; [ discriminate | ].
  destruct (add_months _ months) as [?|proj_end] in H1, H2; [ discriminate | ].
  apply inr_inj in H1. apply inr_inj in H2. subst r1 r2.
  cbv beta iota delta
    [projection summary Projection.riv Summary.friend_riv_projection].
  rewrite E1, E4, E5, E6, E7, E8, E9, E10, E11, E12.
  split; reflexivity.
Qed.

(** The page's defaults on two days, with and without monthly costs. *)
Lemma revenue_frame_witness :
  exists r1 r2,
    calculate a_day (base_defaults a_day) = inr r1 /\
    calculate the_next_day
      (set_monthly_ops (F 0) (base_defaults the_next_day)) = inr r2 /\
    Projection.riv (projection r1) = Projection.riv (projection r2).
Proof.
  destruct (calculate a_day (base_defaults a_day)) as [e|r1] eqn:E1;
    [ vm_compute in E1; discriminate | ].
  destruct (calculate the_next_day
              (set_monthly_ops (F 0) (base_defaults the_next_day)))
    as [e|r2] eqn:E2; [ vm_compute in E2; discriminate | ].
  exists r1, r2. split; [ reflexivity | ]. split; [ reflexivity | ].
  destruct (revenue_frame a_day the_next_day (base_defaults a_day)
              (set_monthly_ops (F 0) (base_defaults the_next_day)) r1 r2)
    as (H & _);
    [ repeat split; reflexivity | exact E1 | exact E2 | exact H ].
Defined.

Lemma riv_component_fst (n : Z) (ps pe : date) (lbl : label)
    (s : option date) (a : float) :
  fst (riv_component n ps pe lbl s a) = lbl.
Proof.
  unfold riv_component. destruct s; [ | reflexivity ].
  destruct (n <=? 0); [ reflexivity | ].
  destruct (date_lt pe d); [ reflexivity | ].
  cbv zeta. destruct (_ <=? 0); reflexivity.
Qed.

(** Names the label and the amount of every stream of the goal. *)
Ltac name_streams :=
  repeat match goal with
  | |- context [riv_component ?n ?a ?b ?l ?s ?x] =>
      let H := fresh in
      pose proof (riv_component_fst n a b l s x) as H;
      destruct (riv_component n a b l s x) as [? ?];
      cbn [fst] in H; subst
  end.

Section Streams.

Variables (today : date) (params : Params.t) (r : result).
Hypothesis Hrun : calculate today params = inr r.

(** X13. A stream whose start is left empty, or cannot be read, starts
    with the window: with a positive number of months it earns its yearly
    amount per day of 365.25 for every day of the window, of which there
    is at least one. *)
Theorem stream_without_start
    (Hpos : 0 < Inputs.projection_months (inputs r)) :
  let i := inputs r in
  let proj_start := Projection.window_start (projection r) in
  let proj_end := Projection.window_end (projection r) in
  let window_days := days_inclusive (Some proj_start) (Some proj_end) in
  let full annual := fmul (fdiv annual f365_25) (of_int window_days) in
  let c := Riv.components (Projection.riv (projection r)) in
  1 <= window_days /\
  (parse_date (Params.riv_bootcamp_start params) proj_start = proj_start ->
   Inputs.bootcamp_start i = Some proj_start /\
   component KBootcamps c
     = Some (full (fmul (Inputs.bootcamp_per_year i)
                        (Inputs.bootcamp_amount i)))) /\
  (parse_date (Params.riv_coaching_start params) proj_start = proj_start ->
   Inputs.coaching_start i = Some proj_start /\
   component KSessions c
     = Some (full (fmul (Inputs.coaching_per_year i)
                        (Inputs.coaching_amount i)))) /\
  (parse_date (Params.riv_llm_start params) proj_start = proj_start ->
   Inputs.llm_start i = Some proj_start /\
   component KLlm c
     = Some (full (fmul (fmul (Inputs.llm_clients i) (Inputs.llm_monthly i))
                        f12))).
Proof.
  pose proof Hrun as H.
  run_calculate H months proj_end Hmonths Hend.
  cbv beta iota delta
    [inputs projection Inputs.projection_months Inputs.bootcamp_start
     Inputs.coaching_start Inputs.llm_start Inputs.bootcamp_per_year
     Inputs.bootcamp_amount Inputs.coaching_per_year Inputs.coaching_amount
     Inputs.llm_clients Inputs.llm_monthly Projection.window_start
     Projection.window_end Projection.riv Riv.components] in Hpos |- *.
  cbv zeta.
  set (ps := parse_date (Params.projection_start params) _) in *.
  assert (Vps : valid_date ps = true) by (apply parse_date_valid; reflexivity).
  assert (Vpe : valid_date proj_end = true)
    by (apply add_months_inr in Hend; tauto).
  pose proof (add_months_later _ _ _ Vps Hpos Hend) as Hlater.
  pose proof (date_lt_asym _ _ Hlater) as Hns.
  pose proof (days_inclusive_pos ps proj_end Vps Vpe Hns) as Hdays.
  assert (Hfull : forall lbl annual,
    riv_component months ps proj_end lbl (Some ps) annual
    = (lbl, fmul (fdiv annual f365_25)
                 (of_int (days_inclusive (Some ps) (Some proj_end))))).
  { intros lbl annual. unfold riv_component.
    replace (months <=? 0) with false by (symmetry; apply Z.leb_gt; lia).
    rewrite Hns. unfold date_max. rewrite date_lt_irrefl.
    replace (days_inclusive (Some ps) (Some proj_end) <=? 0) with false
      by (symmetry; apply Z.leb_gt; lia).
    reflexivity. }
  split; [ exact Hdays | ].
  split; [ | split ]; intros ->; rewrite !Hfull; name_streams;
    split; reflexivity.
Qed.

End Streams.

(** A form without the keys of the streams, and a window of 6 months from
    1 July 2027. *)
Lemma stream_without_start_witness :
  exists r,
    calculate a_day other_projection = inr r /\
    Inputs.bootcamp_start (inputs r) = Some (Date 2027 7 1) /\
    1 <= days_inclusive (Some (Projection.window_start (projection r)))
                        (Some (Projection.window_end (projection r))).
Proof.
  destruct (calculate a_day other_projection) as [e|r] eqn:E;
    [ vm_compute in E; discriminate | ].
  exists r. split; [ reflexivity | ].
  assert (Hm : 0 < Inputs.projection_months (inputs r))
    by (evaluate E r; reflexivity).
  destruct (stream_without_start a_day other_projection r E Hm)
    as (Hd & Hb & _).
  split; [ | exact Hd ].
  destruct Hb as [Hs _]; [ reflexivity | ].
  rewrite Hs. evaluate E r. reflexivity.
Defined.

(** * Texts: strip, replace and split *)

Section TextFacts.

Import Text.

Lemma lstrip_spaces (ws t : text) :
  spaces ws -> lstrip (ws ++ t) = lstrip t.
Proof.
  induction 1 as [ | c ws Hc _ IH ]; simpl; [ reflexivity | ].
  rewrite Hc. exact IH.
Qed.

Lemma lstrip_all_spaces (ws : text) :
  spaces ws -> lstrip ws = [].
Proof.
  intros H. rewrite <- (app_nil_r ws). rewrite lstrip_spaces by assumption.
  reflexivity.
Qed.

Lemma rstrip_spaces (t ws : text) :
  spaces ws -> rstrip (t ++ ws) = rstrip t.
Proof.
  intros H. unfold rstrip. rewrite rev_app_distr.
  rewrite lstrip_spaces; [ reflexivity | ].
  apply Forall_rev. assumption.
Qed.

Lemma strip_spaces (ws t ws' : text) :
  spaces ws ->
  spaces ws' ->
  strip (ws ++ t ++ ws') = strip t.
Proof.
  intros H H'. unfold strip. rewrite lstrip_spaces by assumption.
  clear ws H. induction t as [ | c t IH ]; simpl.
  - rewrite lstrip_all_spaces by assumption. reflexivity.
  - destruct (is_space c); [ exact IH | ].
    change (c :: t ++ ws') with ((c :: t) ++ ws').
    apply rstrip_spaces. assumption.
Qed.

Lemma strip_all_spaces (ws : text) :
  spaces ws -> strip ws = [].
Proof.
  intros H. unfold strip. rewrite lstrip_all_spaces by assumption.
  reflexivity.
Qed.

(** A replacement that keeps spaces spaces and the rest the rest goes
    through [strip]. *)
Lemma lstrip_map (f : N -> N) (t : text) :
  (forall c, is_space (f c) = is_space c) ->
  lstrip (map f t) = map f (lstrip t).
Proof.
  intros Hf. induction t as [ | c t IH ]; simpl; [ reflexivity | ].
  rewrite Hf. destruct (is_space c); [ exact IH | reflexivity ].
Qed.

Lemma strip_map (f : N -> N) (t : text) :
  (forall c, is_space (f c) = is_space c) ->
  strip (map f t) = map f (strip t).
Proof.
  intros Hf. unfold strip, rstrip.
  rewrite lstrip_map by assumption.
  rewrite <- map_rev, lstrip_map by assumption.
  rewrite map_rev. reflexivity.
Qed.

Lemma comma_to_dot_space (c : N) :
  is_space (if (c =? comma)%N then dot else c) = is_space c.
Proof.
  destruct (N.eqb_spec c comma) as [-> | _]; reflexivity.
Qed.

Lemma strip_replace_comma (t : text) :
  strip (replace comma dot t) = replace comma dot (strip t).
Proof. apply strip_map. exact comma_to_dot_space. Qed.

Lemma replace_comma_twice (t : text) :
  replace comma dot (replace comma dot t) = replace comma dot t.
Proof.
  unfold replace. rewrite map_map. apply map_ext. intros c.
  destruct (N.eqb_spec c comma) as [-> | Hc]; [ reflexivity | ].
  destruct (N.eqb_spec c comma); [ contradiction | reflexivity ].
Qed.

Lemma replace_spaces (ws : text) :
  spaces ws ->
  spaces (replace comma dot ws).
Proof.
  intros H. unfold replace. apply Forall_map.
  eapply Forall_impl; [ | exact H ].
  intros c Hc. simpl. rewrite comma_to_dot_space. exact Hc.
Qed.

Lemma split_length (sep : N) (t : text) :
  length (split sep t) = S (count_occ N.eq_dec t sep).
Proof.
  induction t as [ | c t IH ]; simpl; [ reflexivity | ].
  destruct (N.eqb_spec c sep) as [-> | Hc].
  - simpl. destruct (N.eq_dec sep sep); [ | contradiction ].
    rewrite IH. reflexivity.
  - destruct (N.eq_dec c sep); [ contradiction | ].
    destruct (split sep t); simpl in *; [ discriminate | exact IH ].
Qed.

Lemma split_no_sep (sep : N) (t : text) :
  ~ In sep t -> split sep t = [t].
Proof.
  induction t as [ | c t IH ]; simpl; intros H; [ reflexivity | ].
  destruct (N.eqb_spec c sep) as [-> | Hc]; [ tauto | ].
  rewrite IH by tauto. reflexivity.
Qed.

Lemma split_app (sep : N) (a b : text) :
  ~ In sep a -> split sep (a ++ sep :: b) = a :: split sep b.
Proof.
  induction a as [ | c a IH ]; simpl; intros H.
  - rewrite N.eqb_refl. reflexivity.
  - destruct (N.eqb_spec c sep) as [-> | Hc]; [ tauto | ].
    rewrite IH by tauto. reflexivity.
Qed.

Lemma uint_text_digits (u : Decimal.uint) : digits (uint_text u).
Proof.
  induction u; simpl; constructor; try assumption; reflexivity.
Qed.

Lemma zero_padded_digits (w : nat) (n : Z) : digits (zero_padded w n).
Proof.
  unfold zero_padded. apply Forall_app. split.
  - apply Forall_forall. intros c Hc. apply repeat_spec in Hc. subst.
    reflexivity.
  - apply uint_text_digits.
Qed.

Lemma digits_no_minus (t : text) : digits t -> ~ In minus t.
Proof.
  intros H Hin. unfold digits in H. rewrite Forall_forall in H.
  specialize (H _ Hin). discriminate.
Qed.

Lemma split_isoformat (d : date) :
  split minus (isoformat d)
  = [zero_padded 4 (year d); zero_padded 2 (month d); zero_padded 2 (day d)].
Proof.
  unfold isoformat. cbn [app].
  rewrite split_app by (apply digits_no_minus, zero_padded_digits).
  rewrite split_app by (apply digits_no_minus, zero_padded_digits).
  rewrite split_no_sep by (apply digits_no_minus, zero_padded_digits).
  reflexivity.
Qed.

End TextFacts.

(** * The readers on texts *)

(** X14. [parse_float] on the text of a field, for any reading of numbers
    by [float()]: a comma counts as a decimal point, whitespace around
    the text is ignored, a blank or missing field gives the default, and
    the result is that of the field-level reader used by [calculate]. *)
Theorem parse_float_text (py_float : Text.text -> option float)
    (t ws ws' : Text.text) (default : float)
    (Hws : Text.spaces ws) (Hws' : Text.spaces ws') :
  Text.parse_float py_float (Some (Text.replace Text.comma Text.dot t))
      default
    = Text.parse_float py_float (Some t) default /\
  Text.parse_float py_float (Some (ws ++ t ++ ws')) default
    = Text.parse_float py_float (Some t) default /\
  Text.parse_float py_float (Some ws) default = default /\
  Text.parse_float py_float None default = default /\
  forall s,
    Text.parse_float py_float s default
    = parse_float (Text.read_float py_float s) default.
Proof.
  split; [ | split; [ | split; [ | split ] ] ].
  - unfold Text.parse_float.
    rewrite replace_comma_twice, (strip_replace_comma t).
    destruct (Text.strip t); reflexivity.
  - unfold Text.parse_float.
    unfold Text.replace at 1. rewrite !map_app.
    fold (Text.replace Text.comma Text.dot ws).
    fold (Text.replace Text.comma Text.dot t).
    fold (Text.replace Text.comma Text.dot ws').
    rewrite !strip_spaces by (try apply replace_spaces; assumption).
    reflexivity.
  - unfold Text.parse_float. rewrite strip_all_spaces by assumption.
    reflexivity.
  - reflexivity.
  - intros [s | ]; [ | reflexivity ].
    unfold Text.parse_float, Text.read_float.
    destruct (Text.strip s); [ reflexivity | ].
    destruct (py_float _); reflexivity.
Qed.

(** The text [ 1,5] followed by a newline reads as [1,5] does. *)
Lemma parse_float_text_witness :
  Text.parse_float (fun _ => Some (lit 3 (-1))) (Some [32; 49; 44; 53; 10]%N)
    zero
  = Text.parse_float (fun _ => Some (lit 3 (-1))) (Some [49; 44; 53]%N) zero.
Proof.
  destruct (parse_float_text (fun _ => Some (lit 3 (-1))) [49; 44; 53]%N
              [32]%N [10]%N zero) as (_ & H & _).
  - repeat constructor.
  - repeat constructor.
  - exact H.
Defined.

Lemma ints_fail (py_int : Text.text -> option Z) (parts : list Text.text)
    (p : Text.text) :
  In p parts -> py_int p = None -> Text.ints py_int parts = None.
Proof.
  induction parts as [ | q parts IH ]; simpl; [ tauto | ].
  intros [-> | Hin] Hp.
  - rewrite Hp. reflexivity.
  - destruct (py_int q); [ | reflexivity ].
    rewrite (IH Hin Hp). reflexivity.
Qed.

Lemma ints_length (py_int : Text.text -> option Z) (parts : list Text.text)
    (ns : list Z) :
  Text.ints py_int parts = Some ns -> length ns = length parts.
Proof.
  revert ns. induction parts as [ | q parts IH ]; simpl; intros ns H.
  - injection H as <-. reflexivity.
  - destruct (py_int q); [ | discriminate ].
    destruct (Text.ints py_int parts) as [ms | ]; [ | discriminate ].
    injection H as <-. simpl. rewrite (IH ms eq_refl). reflexivity.
Qed.

(** X15. [parse_date] on the text of a field never fails and always gives
    a date of the calendar: a missing or empty field, a text with fewer
    than two dashes and a text with a part that [int()] rejects all give
    the default. *)
Theorem parse_date_text (py_int : Text.text -> option Z)
    (t : Text.text) (default : date)
    (Hdefault : valid_date default = true) :
  (forall s,
     Text.parse_date py_int s default
     = parse_date (Text.read_date py_int s) default) /\
  valid_date (Text.parse_date py_int (Some t) default) = true /\
  Text.parse_date py_int None default = default /\
  Text.parse_date py_int (Some []) default = default /\
  ((count_occ N.eq_dec t Text.minus < 2)%nat ->
   Text.parse_date py_int (Some t) default = default) /\
  (forall p, In p (Text.split Text.minus t) -> py_int p = None ->
   Text.parse_date py_int (Some t) default = default).
Proof.
  assert (Hrel : forall s,
     Text.parse_date py_int s default
     = parse_date (Text.read_date py_int s) default).
  { intros [[ | c s] | ]; try reflexivity.
    unfold Text.parse_date, Text.read_date.
    destruct (Text.ints py_int _) as [ns | ]; reflexivity. }
  split; [ exact Hrel | ].
  split; [ rewrite Hrel; apply parse_date_valid; assumption | ].
  split; [ reflexivity | ]. split; [ reflexivity | ].
  split.
  - intros Hfew. destruct t as [ | c t ]; [ reflexivity | ].
    unfold Text.parse_date.
    destruct (Text.ints py_int _) as [ns | ] eqn:E; [ | reflexivity ].
    apply ints_length in E. rewrite split_length in E.
    destruct ns as [ | y [ | m [ | d rest ] ] ]; try reflexivity.
    cbn [length] in E. lia.
  - intros p Hin Hp. destruct t as [ | c t ]; [ reflexivity | ].
    unfold Text.parse_date. rewrite (ints_fail py_int _ p Hin Hp).
    reflexivity.
Qed.

(** [2024-12] has one dash only. *)
Lemma parse_date_text_witness :
  Text.parse_date Text.ascii_int (Some [50; 48; 50; 52; 45; 49; 50]%N)
    (Date 2026 1 1) = Date 2026 1 1.
Proof.
  destruct (parse_date_text Text.ascii_int [50; 48; 50; 52; 45; 49; 50]%N
              (Date 2026 1 1) eq_refl) as (_ & _ & _ & _ & H & _).
  apply H. vm_compute. lia.
Defined.

(** X16. Round trip of the page's defaults: the ISO text of a valid date,
    as [date.today().isoformat()] writes it, is read back by [parse_date]
    as that date, whatever the default, given that [int()] reads the
    three zero-padded numbers. *)
Theorem parse_date_isoformat (py_int : Text.text -> option Z)
    (d default : date)
    (Hd : valid_date d = true)
    (Hyear : py_int (Text.zero_padded 4 (year d)) = Some (year d))
    (Hmonth : py_int (Text.zero_padded 2 (month d)) = Some (month d))
    (Hday : py_int (Text.zero_padded 2 (day d)) = Some (day d)) :
  Text.parse_date py_int (Some (Text.isoformat d)) default = d /\
  Text.read_date py_int (Some (Text.isoformat d))
    = Read [year d; month d; day d].
Proof.
  assert (Hints : Text.ints py_int (Text.split Text.minus (Text.isoformat d))
                  = Some [year d; month d; day d]).
  { rewrite split_isoformat. simpl. rewrite Hyear, Hmonth, Hday.
    reflexivity. }
  assert (Hne : exists c t, Text.isoformat d = c :: t).
  { destruct (Text.isoformat d) as [ | c t ] eqn:E; [ | eauto ].
    exfalso. apply (f_equal (@length N)) in E. unfold Text.isoformat in E.
    rewrite !length_app in E. simpl in E. lia. }
  destruct Hne as (c & t & E).
  unfold Text.parse_date, Text.read_date. rewrite E, <- E, Hints.
  destruct d as [y m dd]. cbn [year month day].
  rewrite (mk_date_valid y m dd Hd). split; reflexivity.
Qed.

Lemma parse_date_isoformat_witness :
  Text.parse_date Text.ascii_int (Some (Text.isoformat (Date 2026 11 3)))
    (Date 2024 9 1) = Date 2026 11 3.
Proof.
  apply (parse_date_isoformat Text.ascii_int (Date 2026 11 3) (Date 2024 9 1));
    reflexivity.
Defined.

(** * Amounts as texts *)

Section EurFacts.
Import Text.

Lemma replace_chain (t : text) :
  ~ In letter_X t ->
  replace letter_X dot (replace dot comma (replace comma letter_X t))
  = map swap_separators t.
Proof.
  intros H. unfold replace. rewrite !map_map.
  apply map_ext_in. intros c Hc.
  assert (Hx : c <> letter_X) by (intros ->; contradiction).
  unfold swap_separators.
  destruct (N.eqb_spec c comma) as [-> | Hcomma]; [ reflexivity | ].
  destruct (N.eqb_spec c dot) as [-> | Hdot]; [ reflexivity | ].
  destruct (N.eqb_spec c letter_X); [ contradiction | reflexivity ].
Qed.

Lemma group_rev_chars (P : N -> Prop) :
  P comma -> forall (n : nat) (ds : text),
    (length ds <= n)%nat -> Forall P ds -> Forall P (group_rev ds).
Proof.
  intros Hc. induction n as [ | n IH ]; intros ds Hlen H.
  - destruct ds; [ constructor | simpl in Hlen; lia ].
  - destruct ds as [ | a [ | b [ | c [ | d rest ] ] ] ]; try assumption.
    change (group_rev (a :: b :: c :: d :: rest))
      with (a :: b :: c :: comma :: group_rev (d :: rest)).
    inversion H as [ | ? ? Ha H1 ]; subst.
    inversion H1 as [ | ? ? Hb H2 ]; subst.
    inversion H2 as [ | ? ? Hcc H3 ]; subst.
    repeat constructor; try assumption.
    apply IH; [ simpl in Hlen |- *; lia | assumption ].
Qed.

Lemma grouped_chars (P : N -> Prop) (ds : text) :
  P comma -> Forall P ds -> Forall P (grouped ds).
Proof.
  intros Hc H. unfold grouped. apply Forall_rev.
  apply (group_rev_chars P Hc (length (rev ds))); [ lia | ].
  apply Forall_rev. assumption.
Qed.

Lemma sign_text_chars (P : N -> Prop) (s : bool) :
  P minus -> Forall P (sign_text s).
Proof. intros H. destruct s; repeat constructor. assumption. Qed.

Lemma digits_impl (P : N -> Prop) (t : text) :
  (forall c, is_digit c = true -> P c) -> digits t -> Forall P t.
Proof. intros HP H. eapply Forall_impl; [ | exact H ]. exact HP. Qed.

(** Every character of a formatted number is a digit, a separator or a
    minus sign. *)
Lemma format_2f_number (x : float) :
  is_number x = true ->
  Forall (fun c => amount_char c = true) (format_2f x).
Proof.
  assert (Hd : forall c, is_digit c = true -> amount_char c = true)
    by (intros c Hc; unfold amount_char; rewrite Hc; reflexivity).
  destruct x as [s | s | | s m e]; try discriminate; intros _; simpl.
  - apply Forall_app. split; [ apply sign_text_chars; reflexivity | ].
    repeat constructor.
  - apply Forall_app. split; [ apply sign_text_chars; reflexivity | ].
    apply Forall_app. split.
    + apply grouped_chars; [ reflexivity | ].
      apply digits_impl; [ exact Hd | apply uint_text_digits ].
    + constructor; [ reflexivity | ].
      apply digits_impl; [ exact Hd | apply zero_padded_digits ].
Qed.

Lemma format_2f_no_X (x : float) : ~ In letter_X (format_2f x).
Proof.
  destruct (is_number x) eqn:E.
  - intros Hin. pose proof (format_2f_number x E) as H.
    rewrite Forall_forall in H. specialize (H _ Hin). discriminate.
  - destruct x as [s | [|] | | s m e]; try discriminate; simpl;
      intros H; repeat (destruct H as [H | H]; [ discriminate | ]);
      contradiction.
Qed.

Lemma zero_padded_2 (k : Z) :
  0 <= k < 100 ->
  exists d1 d2, zero_padded 2 k = [d1; d2] /\
                is_digit d1 = true /\ is_digit d2 = true.
Proof.
  intros Hk.
  assert (Hall : forallb
            (fun n => match zero_padded 2 n with
                      | [d1; d2] => is_digit d1 && is_digit d2
                      | _ => false
                      end) (map Z.of_nat (seq 0 100)) = true)
    by (vm_compute; reflexivity).
  rewrite forallb_forall in Hall. specialize (Hall k).
  assert (Hin : In k (map Z.of_nat (seq 0 100))).
  { apply in_map_iff. exists (Z.to_nat k). split; [ lia | ].
    apply in_seq. lia. }
  specialize (Hall Hin).
  destruct (zero_padded 2 k) as [ | d1 [ | d2 [ | ? ? ] ] ]; try discriminate.
  apply andb_true_iff in Hall. exists d1, d2. tauto.
Qed.

End EurFacts.

Lemma swap_digit (d : N) :
  Text.is_digit d = true -> swap_separators d = d.
Proof.
  intros Hd. unfold swap_separators.
  destruct (N.eqb_spec d Text.comma) as [-> | _]; [ discriminate | ].
  destruct (N.eqb_spec d Text.dot) as [-> | _]; [ discriminate | ].
  reflexivity.
Qed.

Lemma eur_swap (x : float) :
  eur x = Text.euro :: map swap_separators (Text.format_2f x).
Proof.
  unfold eur. rewrite replace_chain.
  - reflexivity.
  - intros [H | H]; [ discriminate | ].
    exact (format_2f_no_X x H).
Qed.

(** X17. The three replacements of [eur] exchange commas and dots and
    change nothing else, for every float, infinities and NaN included:
    the placeholder X is in no formatted number and in no result. *)
Theorem eur_exchanges_separators (x : float) :
  eur x = Text.euro :: map swap_separators (Text.format_2f x) /\
  ~ In Text.letter_X (eur x).
Proof.
  pose proof (eur_swap x) as E.
  split; [ exact E | ].
  rewrite E. intros [H | H]; [ discriminate | ].
  apply in_map_iff in H. destruct H as (c & Hc & Hin).
  unfold swap_separators in Hc.
  destruct (N.eqb_spec c Text.comma); [ discriminate | ].
  destruct (N.eqb_spec c Text.dot); [ discriminate | ].
  subst c. exact (format_2f_no_X x Hin).
Qed.

(** X18. The shape of an amount: for a float that is a number, [eur]
    gives the euro sign, a non-empty body of digits, dots and at most a
    minus sign, a comma, and exactly two digits. *)
Theorem eur_two_decimals (x : float) (Hx : is_number x = true) :
  exists body d1 d2,
    eur x = Text.euro :: body ++ [Text.comma; d1; d2] /\
    Text.is_digit d1 = true /\ Text.is_digit d2 = true /\
    body <> [] /\
    Forall (fun c => Text.is_digit c = true \/ c = Text.dot \/ c = Text.minus)
           body.
Proof.
  rewrite eur_swap.
  assert (Hswap : forall t,
            Forall (fun c => Text.is_digit c = true \/ c = Text.comma
                             \/ c = Text.minus) t ->
            Forall (fun c => Text.is_digit c = true \/ c = Text.dot
                             \/ c = Text.minus)
                   (map swap_separators t)).
  { intros t H. apply Forall_map. eapply Forall_impl; [ | exact H ].
    intros c [Hc | [-> | ->]]; [ | right; left; reflexivity
                                | right; right; reflexivity ].
    left. unfold swap_separators.
    destruct (N.eqb_spec c Text.comma) as [-> | _]; [ discriminate | ].
    destruct (N.eqb_spec c Text.dot) as [-> | _]; [ discriminate | ].
    exact Hc. }
  assert (Hsign : forall s,
            Forall (fun c => Text.is_digit c = true \/ c = Text.comma
                             \/ c = Text.minus) (Text.sign_text s))
    by (intros s; apply sign_text_chars; auto).
  destruct x as [s | s | | s m e]; try discriminate.
  - exists (map swap_separators (Text.sign_text s ++ [Text.digit_0])),
      Text.digit_0, Text.digit_0.
    split; [ | split; [ reflexivity | split; [ reflexivity | split ] ] ].
    + cbn [Text.format_2f]. rewrite !map_app. rewrite <- app_assoc.
      reflexivity.
    + destruct s; discriminate.
    + apply Hswap. apply Forall_app. split; [ apply Hsign | ].
      repeat constructor.
  - cbn [Text.format_2f]. cbv zeta.
    set (n := Text.round_half_even (Z.pos m * 100) e).
    destruct (zero_padded_2 (n mod 100)) as (d1 & d2 & Hz & H1 & H2);
      [ apply Z.mod_pos_bound; lia | ].
    rewrite Hz.
    exists (map swap_separators
              (Text.sign_text s ++ Text.grouped (Text.decimal_text (n / 100)))),
      d1, d2.
    split; [ | split; [ exact H1 | split; [ exact H2 | split ] ] ].
    + rewrite !map_app. cbn [map].
      rewrite (swap_digit d1 H1), (swap_digit d2 H2).
      rewrite <- app_assoc. reflexivity.
    + intros Hnil. apply map_eq_nil in Hnil.
      apply app_eq_nil in Hnil. destruct Hnil as [_ Hg].
      unfold Text.grouped in Hg.
      apply (f_equal (@rev N)) in Hg. rewrite rev_involutive in Hg.
      simpl in Hg.
      assert (Hne : rev (Text.decimal_text (n / 100)) <> []).
      { intros Hr. apply (f_equal (@rev N)) in Hr.
        rewrite rev_involutive in Hr. simpl in Hr.
        unfold Text.decimal_text in Hr.
        destruct (Z.to_N (n / 100)) as [ | p ]; [ discriminate | ].
        simpl in Hr. pose proof (DecimalPos.Unsigned.to_uint_nonnil p) as Hp.
        destruct (Pos.to_uint p); try discriminate. contradiction. }
      destruct (rev (Text.decimal_text (n / 100)))
        as [ | a [ | b [ | c [ | d rest ] ] ] ]; try discriminate.
      contradiction.
    + apply Hswap. apply Forall_app. split; [ apply Hsign | ].
      apply grouped_chars; [ auto | ].
      apply digits_impl; [ auto | apply uint_text_digits ].
Qed.

(** The amount 123456.789. *)
Lemma eur_two_decimals_witness :
  exists body d1 d2,
    eur (lit 123456789 (-3)) = Text.euro :: body ++ [Text.comma; d1; d2] /\
    Text.is_digit d1 = true /\ Text.is_digit d2 = true.
Proof.
  destruct (eur_two_decimals (lit 123456789 (-3)) eq_refl)
    as (body & d1 & d2 & E & H1 & H2 & _).
  exists body, d1, d2. repeat split; assumption.
Defined.

(** * The page *)

Lemma form_get_twice {A : Type} (f : field A) :
  form_get (form_get f) = form_get f.
Proof. destruct f; reflexivity. Qed.

Lemma form_get_or {A : Type} (f dflt : field A) :
  get_or (form_get f) dflt = form_get f.
Proof. destruct f; reflexivity. Qed.

Lemma parse_float_form_get (f : field float) (default : float) :
  parse_float (form_get f) default = parse_float f default.
Proof. destruct f; reflexivity. Qed.

Lemma parse_date_form_get (f : field (list Z)) (default : date) :
  parse_date (form_get f) default = parse_date f default.
Proof. destruct f; reflexivity. Qed.

(** X19. On POST a field missing from the form is read as an empty text,
    so that the defaults of [calculate] for a missing key are never used:
    a form without a share field gives 0 percent, not 40.  Reading the
    form twice changes nothing. *)
Theorem post_missing_is_empty (today : date) (form : Params.t) :
  share_percent (post_params form)
    = parse_float (Params.share_pct form) zero /\
  months_read (post_params form)
    = parse_float (Params.projection_months form) (lit 24 0) /\
  post_params (post_params form) = post_params form /\
  index POST today (post_params form) = index POST today form /\
  (Params.share_pct form = Absent ->
   share_percent form = lit 40 0 /\ share_percent (post_params form) = zero).
Proof.
  assert (Hidem : post_params (post_params form) = post_params form).
  { unfold post_params. cbn [Params.share_pct Params.calc_start
      Params.join_date Params.projection_start Params.projection_months
      Params.director_start Params.past_cash_total Params.portal_val
      Params.finance_val Params.website_val Params.monthly_ops
      Params.legal_fee Params.legal_fee_date Params.director_salary_year
      Params.riv_bootcamp_start Params.riv_bootcamp_per_year
      Params.riv_bootcamp_amount Params.riv_coaching_start
      Params.riv_coaching_per_year Params.riv_coaching_amount
      Params.riv_llm_start Params.riv_llm_clients Params.riv_llm_monthly].
    rewrite !form_get_twice. reflexivity. }
  split; [ | split; [ | split; [ exact Hidem | split ] ] ].
  - unfold share_percent, post_params. cbn [Params.share_pct].
    rewrite form_get_or. apply parse_float_form_get.
  - unfold months_read, post_params. cbn [Params.projection_months].
    rewrite form_get_or. apply parse_float_form_get.
  - unfold index, index_results. rewrite Hidem. reflexivity.
  - intros Habs. unfold share_percent, post_params.
    cbn [Params.share_pct]. rewrite Habs. split; reflexivity.
Qed.

(** X20. On GET the page ignores the form and shows the defaults on any
    day: the calculation returns, the join date is the day itself, the
    window runs from 1 January 2026 to 1 January 2028, the legal fee of
    15 January 2026 is counted in the window, and in the past period as
    well from that day on. *)
Theorem index_get (today : date) (form : Params.t)
    (Htoday : valid_date today = true) :
  exists r d,
    calculate today (base_defaults today) = inr r /\
    index GET today form = inr d /\
    Display.inputs d = inputs r /\
    Inputs.join_date (inputs r) = today /\
    Display.proj_window d = (Date 2026 1 1, Date 2028 1 1) /\
    component KLegalWindow (Projection.components (projection r))
      = Some (lit 2500 0) /\
    component KLegalPast (Past.components (past r))
      = Some (if date_le (Date 2026 1 15) today then lit 2500 0 else zero) /\
    Display.summary_friend_due_to_join d = eur (Past.friend_total (past r)).
Proof.
  destruct (calculate_in_calendar today (base_defaults today) 24 eq_refl)
    as (r & Hr & _); [ vm_compute; split; discriminate | ].
  exists r. unfold index, index_results, bind, ret. rewrite Hr.
  eexists. split; [ reflexivity | ]. split; [ reflexivity | ].
  cbn [Display.inputs Display.proj_window Display.summary_friend_due_to_join].
  pose proof Hr as H.
  run_calculate H months proj_end Hmonths Hend.
  vm_compute in Hmonths. apply inr_inj in Hmonths. subst months.
  vm_compute in Hend. apply inr_inj in Hend. subst proj_end.
  cbv beta iota delta
    [inputs past projection summary Inputs.join_date Projection.window_start
     Projection.window_end Projection.components Past.components
     Past.friend_total Summary.friend_due_to_join base_defaults
     Params.join_date Params.legal_fee_date Params.projection_start
     Params.legal_fee iso].
  assert (Hjoin : parse_date (Read [year today; month today; day today]) today
                  = today).
  { rewrite parse_date_read by (destruct today; exact Htoday).
    destruct today; reflexivity. }
  rewrite !Hjoin.
  split; [ reflexivity | ]. split; [ reflexivity | ].
  split; [ reflexivity | ].
  split; [ reflexivity | ]. split; reflexivity.
Qed.

Lemma index_get_witness :
  exists r d,
    calculate a_day (base_defaults a_day) = inr r /\
    index GET a_day all_empty = inr d /\
    Display.proj_window d = (Date 2026 1 1, Date 2028 1 1).
Proof.
  destruct (index_get a_day all_empty eq_refl)
    as (r & d & Hr & Hd & _ & _ & Hw & _).
  exists r, d. repeat split; assumption.
Defined.
